(** * Chunking-and-summarization pipeline

    A shallow embedding of the pipeline shared by [summarization(2).py]
    (command-line front end) and [gui.py] (desktop front end):

    - [chunk_text]: packs the lines of a text into segments under a
      character budget;
    - [summarize_with_ollama]: one external-process call and the choice
      between its two captured output streams;
    - [Cli.summarize] / [Gui.summarize]: the loop over the segments.

    Python [str] values are sequences of Unicode code points, and [len]
    counts code points, so a string is a list of code points here. *)

From Stdlib Require Import List ZArith NArith Lia Bool Ascii.
From Stdlib Require String.
From Stdlib Require Import Numbers.DecimalString Numbers.DecimalNat.
Import ListNotations String.StringSyntax.

Delimit Scope string_scope with string.

Set Implicit Arguments.

(* ================================================================== *)
(** ** Python strings *)

(** A code point. *)
Definition char := N.

(** A Python [str]. *)
Definition str := list char.

(** ASCII literals, for writing the constants of the source. *)
Definition of_string (s : String.string) : str :=
  map N_of_ascii (String.list_ascii_of_string s).

Arguments of_string s%_string.

(** The newline character, ["\n"]. *)
Definition nl : char := 10%N.

(** Truthiness of a Python sequence ([if current:], [if proc.stdout]):
    a sequence is true exactly when it is not empty. *)
Definition truthy {A : Type} (l : list A) : bool :=
  match l with
  | [] => false
  | _ :: _ => true
  end.

(** [s.split(sep)] for a one-character separator: the pieces between
    the occurrences of [sep], empty pieces included; the empty string
    gives one empty piece. *)
Fixpoint split (sep : char) (s : str) : list str :=
  match s with
  | [] => [[]]
  | c :: s' =>
      if N.eqb c sep then [] :: split sep s'
      else match split sep s' with
           | [] => [[c]]
           | p :: ps => (c :: p) :: ps
           end
  end.

(** [sep.join(xs)]. *)
Fixpoint join (sep : str) (xs : list str) : str :=
  match xs with
  | [] => []
  | x :: xs' =>
      match xs' with
      | [] => x
      | _ :: _ => x ++ sep ++ join sep xs'
      end
  end.

(** [c.isspace()]: the code points that [str.strip()] removes. *)
Definition is_space (c : char) : bool :=
  ((9 <=? c) && (c <=? 13) || (28 <=? c) && (c <=? 32)
   || (c =? 133) || (c =? 160) || (c =? 5760)
   || (8192 <=? c) && (c <=? 8202)
   || (c =? 8232) || (c =? 8233) || (c =? 8239) || (c =? 8287)
   || (c =? 12288))%N.

Fixpoint drop_while {A : Type} (f : A -> bool) (l : list A) : list A :=
  match l with
  | [] => []
  | x :: l' => if f x then drop_while f l' else l
  end.

Definition lstrip (s : str) : str := drop_while is_space s.
Definition rstrip (s : str) : str := rev (drop_while is_space (rev s)).

(** [s.strip()]. *)
Definition strip (s : str) : str := rstrip (lstrip s).

(** [str(n)] for a non-negative integer, as an f-string renders it. *)
Definition decimal (n : nat) : str :=
  of_string (NilEmpty.string_of_uint (Nat.to_uint n)).

(* ================================================================== *)
(** ** Text segmentation: [chunk_text] *)

(** The variables of the packing loop. *)
Record packer := Packer {
  chunks : list str;    (* segments closed so far *)
  current : list str;   (* lines of the running segment *)
  count : Z             (* sum of the lengths of [current] *)
}.

(** [len(p)]. *)
Definition len (p : str) : Z := Z.of_nat (length p).

(** One iteration of [for p in paras]. *)
Definition chunk_step (max_chars : Z) (st : packer) (p : str) : packer :=
  let l := len p in
  if (count st + l >? max_chars)%Z && truthy (current st)
  then Packer (chunks st ++ [join [nl] (current st)]) [p] l
  else Packer (chunks st) (current st ++ [p]) (count st + l)%Z.

Definition chunk_text (text : str) (max_chars : Z) : list str :=
  let paras := split nl text in
  let st := fold_left (chunk_step max_chars) paras (Packer [] [] 0%Z) in
  if truthy (current st)
  then chunks st ++ [join [nl] (current st)]
  else chunks st.

(** The default of the [max_chars] argument. *)
Definition default_max_chars : Z := 20000%Z.

(* ================================================================== *)
(** ** Effects: exceptions and the log of external interactions *)

(** A raised Python exception: its class and its message. *)
Inductive exn := Exn (cls : String.string) (msg : str).

Arguments Exn cls%_string msg.

(** What a statement does: it completes with a value or raises. *)
Inductive outcome (A : Type) :=
| Return (a : A)
| Raise (e : exn).

Arguments Return {A} a.
Arguments Raise {A} e.

(** [subprocess.CompletedProcess], with both streams captured and
    decoded. *)
Record CompletedProcess := {
  returncode : Z;
  stdout : str;
  stderr : str
}.

(** The interactions of a run with the outside, each with what came
    back. *)
Inductive event :=
| EvPrint (line : str)
| EvCallback (msg : str) (r : outcome unit)
| EvRun (argv : list str) (r : outcome CompletedProcess).

(** The log of a run, oldest event first. *)
Definition trace := list event.

(** A computation reads the log so far and returns its outcome and the
    extended log. *)
Definition Py (A : Type) := trace -> outcome A * trace.

Definition ret {A : Type} (a : A) : Py A := fun h => (Return a, h).

Definition bind {A B : Type} (c : Py A) (k : A -> Py B) : Py B :=
  fun h =>
    match c h with
    | (Return a, h') => k a h'
    | (Raise e, h') => (Raise e, h')
    end.

Notation "x <- c ;; k" := (bind c (fun x => k))
  (at level 61, c at next level, right associativity).
Notation "c ;;; k" := (bind c (fun _ => k))
  (at level 61, right associativity).

(** [subprocess.run(argv, stdout=PIPE, stderr=PIPE, encoding="utf-8",
    errors="ignore", check=False)] as the rest of the world answers it:
    given the log so far and the command line, the process either
    cannot be started (an exception) or runs to its end.  With
    [check=False] the exit status raises nothing. *)
Definition process_world := trace -> list str -> outcome CompletedProcess.

(** A progress callback supplied by the caller: it receives one
    message and returns nothing, or raises. *)
Definition callback := trace -> str -> outcome unit.

Definition subprocess_run (world : process_world) (argv : list str)
  : Py CompletedProcess :=
  fun h => let r := world h argv in (r, h ++ [EvRun argv r]).

Definition call (cb : callback) (msg : str) : Py unit :=
  fun h => let r := cb h msg in (r, h ++ [EvCallback msg r]).

Definition print (line : str) : Py unit :=
  fun h => (Return tt, h ++ [EvPrint line]).

(** [enumerate(xs, start)]. *)
Fixpoint enumerate {A : Type} (xs : list A) (start : nat) : list (nat * A) :=
  match xs with
  | [] => []
  | x :: xs' => (start, x) :: enumerate xs' (S start)
  end.

(** A [for] loop whose body updates the local variable [s]. *)
Fixpoint for_each {A S : Type} (xs : list A) (body : A -> S -> Py S) (s : S)
  : Py S :=
  match xs with
  | [] => ret s
  | x :: xs' => s' <- body x s ;; for_each xs' body s'
  end.

(* ================================================================== *)
(** ** The call to the Ollama command line: [summarize_with_ollama] *)

(** The fullwidth colon that ends both lines of the prompt. *)
Definition fullwidth_colon : char := 65306%N.

Definition prompt_of (text : str) : str :=
  of_string "The following is the summary content" ++ [fullwidth_colon; nl]
  ++ (text ++ [nl; nl])
  ++ of_string "Please extract the key points of this passage in English and output a concise summary"
  ++ [fullwidth_colon].

(** The command line handed to [subprocess.run]. *)
Definition ollama_argv (text model : str) : list str :=
  [of_string "ollama"; of_string "run"; model; prompt_of text].

(** [proc.stdout.strip() if proc.stdout else proc.stderr.strip()]. *)
Definition output_of (proc : CompletedProcess) : str :=
  if truthy (stdout proc) then strip (stdout proc) else strip (stderr proc).

Definition summarize_with_ollama (world : process_world) (text model : str)
  : Py str :=
  proc <- subprocess_run world (ollama_argv text model) ;;
  ret (output_of proc).

(* ================================================================== *)
(** ** The pipeline: [summarize] *)

(** [f"{idx}/{total}"], the part the two progress messages share. *)
Definition fraction (idx total : nat) : str :=
  decimal idx ++ of_string "/" ++ decimal total.

(** [summarize] of [summarization(2).py]. *)
Module Cli.

Definition progress_line (idx total : nat) : str :=
  of_string ">>> Summarizing chunk " ++ fraction idx total ++ of_string " ...".

Definition summarize (world : process_world) (text model : str) : Py str :=
  let chunks := chunk_text text default_max_chars in
  summaries <-
    for_each (enumerate chunks 1)
      (fun '(idx, chunk) summaries =>
         print (progress_line idx (length chunks)) ;;;
         s <- summarize_with_ollama world chunk model ;;
         ret (summaries ++ [s]))
      [] ;;
  ret (join [nl; nl] summaries).

End Cli.

(** [summarize] of [gui.py]. *)
Module Gui.

Definition progress_msg (idx total : nat) : str :=
  of_string "Summarizing part " ++ fraction idx total ++ of_string "...".

Definition summarize (world : process_world) (text model : str)
    (update_callback : option callback) : Py str :=
  let chunks := chunk_text text default_max_chars in
  summaries <-
    for_each (enumerate chunks 1)
      (fun '(idx, chunk) summaries =>
         match update_callback with
         | Some cb => call cb (progress_msg idx (length chunks))
         | None => ret tt
         end ;;;
         s <- summarize_with_ollama world chunk model ;;
         ret (summaries ++ [s]))
      [] ;;
  ret (join [nl; nl] summaries).

End Gui.

(* ================================================================== *)
(** ** Vocabulary of the properties *)

(** Sum of the lengths of the lines of a group: what [count] tracks. *)
Definition sum_len (g : list str) : Z :=
  fold_right (fun p n => (len p + n)%Z) 0%Z g.

(** A group respects the budget, or is one line that alone exceeds it. *)
Definition within (max_chars : Z) (g : list str) : Prop :=
  (sum_len g <= max_chars)%Z \/ exists p, g = [p] /\ (max_chars < len p)%Z.

(** The loop invariant: [gs] are the groups of lines behind the closed
    segments, after the lines [done] were consumed. *)
Record packed (max_chars : Z) (done : list str) (st : packer)
    (gs : list (list str)) : Prop := {
  pk_chunks : chunks st = map (join [nl]) gs;
  pk_cover : concat gs ++ current st = done;
  pk_nonempty : Forall (fun g => g <> []) gs;
  pk_within : Forall (within max_chars) gs;
  pk_count : count st = sum_len (current st);
  pk_current : current st = [] \/ within max_chars (current st)
}.

(** The characters of a segment that are not the newlines between its
    lines. *)
Definition content_length (seg : str) : Z :=
  len (filter (fun c => negb (N.eqb c nl)) seg).

(** The body of the loop of [Cli.summarize], for [total] segments. *)
Definition cli_body (world : process_world) (model : str) (total : nat)
  : nat * str -> list str -> Py (list str) :=
  fun '(idx, chunk) summaries =>
    print (Cli.progress_line idx total) ;;;
    s <- summarize_with_ollama world chunk model ;;
    ret (summaries ++ [s]).

(** The body of the loop of [Gui.summarize]. *)
Definition gui_body (world : process_world) (model : str)
    (update_callback : option callback) (total : nat)
  : nat * str -> list str -> Py (list str) :=
  fun '(idx, chunk) summaries =>
    match update_callback with
    | Some cb => call cb (Gui.progress_msg idx total)
    | None => ret tt
    end ;;;
    s <- summarize_with_ollama world chunk model ;;
    ret (summaries ++ [s]).

(** What a run of [Cli.summarize] logs for one segment when the
    backend answers as the function [backend]. *)
Definition cli_events (backend : list str -> CompletedProcess) (model : str)
    (total : nat) (x : nat * str) : list event :=
  let '(idx, chunk) := x in
  [EvPrint (Cli.progress_line idx total);
   EvRun (ollama_argv chunk model) (Return (backend (ollama_argv chunk model)))].

(** What a completed run of [Gui.summarize] logs for one segment. *)
Definition gui_events (model : str) (total : nat)
    (x : nat * str * CompletedProcess) : list event :=
  let '(idx, chunk, proc) := x in
  [EvCallback (Gui.progress_msg idx total) (Return tt);
   EvRun (ollama_argv chunk model) (Return proc)].

(** The messages handed to the callback, in order. *)
Definition callback_messages (t : trace) : list str :=
  flat_map (fun ev => match ev with
                      | EvCallback msg _ => [msg]
                      | _ => []
                      end) t.

(* ================================================================== *)
(** ** Sample inputs and environments *)

(** Two short lines. *)
Definition line_pair : str := of_string "a" ++ [nl] ++ of_string "b".

(** One line of six characters. *)
Definition six_chars : str := of_string "abcdef".

(** The six-character line between two others. *)
Definition three_lines : str :=
  of_string "x" ++ [nl] ++ six_chars ++ [nl] ++ of_string "y".

(** A line that fills the default budget, and a text that needs two
    segments under it. *)
Definition full_line : str := repeat 97%N (Z.to_nat default_max_chars).
Definition two_segments : str := full_line ++ [nl] ++ of_string "b".

Definition model_m : str := of_string "m".

(** A process that prints its answer on the primary stream. *)
Definition proc_ok : CompletedProcess :=
  {| returncode := 0; stdout := of_string " S "; stderr := [] |}.

(** The same streams with a failing exit status. *)
Definition proc_ok_exit1 : CompletedProcess :=
  {| returncode := 1; stdout := of_string " S "; stderr := [] |}.

(** A process that prints one space and reports on the diagnostic
    stream. *)
Definition proc_blank : CompletedProcess :=
  {| returncode := 1; stdout := of_string " "; stderr := of_string "no model" |}.

Definition world_ok : process_world := fun _ _ => Return proc_ok.
Definition world_ok_exit1 : process_world := fun _ _ => Return proc_ok_exit1.
Definition world_blank : process_world := fun _ _ => Return proc_blank.

(** A backend that answers with the length of its prompt. *)
Definition backend_len (argv : list str) : CompletedProcess :=
  {| returncode := 1;
     stdout := decimal (length (nth 3 argv [])) ++ [nl];
     stderr := of_string "warning" |}.

Definition world_len : process_world := fun _ argv => Return (backend_len argv).

Definition boom : exn := Exn "RuntimeError" (of_string "widget destroyed").

(** Callbacks: one that always returns, one that always raises, one
    that raises on every invocation but the first of a run. *)
Definition cb_ok : callback := fun _ _ => Return tt.
Definition cb_fail : callback := fun _ _ => Raise boom.
Definition cb_once : callback :=
  fun h _ => match h with [] => Return tt | _ :: _ => Raise boom end.

(** Prove a closed equation by evaluating its left-hand side. *)
Ltac evaluate :=
  lazymatch goal with
  | |- _ = ?rhs => vm_cast_no_check (@eq_refl _ rhs)
  end.

(* ================================================================== *)
(** ** Text extraction: [extract_text_from_pdf], [extract_text_from_docx] *)

(** [x or ""] for the result of [page.extract_text()], which is [None]
    or a string. *)
Definition or_empty (x : option str) : str :=
  match x with
  | Some s => if truthy s then s else []
  | None => []
  end.

(** [extract_text_from_pdf].  The argument [pdfplumber_open] stands for
    the reader of the [pdfplumber] package: for a path it raises, or
    gives for each page of the document what [page.extract_text()]
    returns. *)
Definition extract_text_from_pdf
    (pdfplumber_open : str -> outcome (list (option str))) (pdf_path : str)
  : outcome str :=
  match pdfplumber_open pdf_path with
  | Raise e => Raise e
  | Return pages =>
      let texts := fold_left (fun texts page => texts ++ [or_empty page])
                     pages [] in
      Return (join [nl] texts)
  end.

(** [extract_text_from_docx].  The argument [Document] stands for the
    reader of the [docx] package: for a path it raises, or gives the
    [text] of each paragraph of the document. *)
Definition extract_text_from_docx
    (Document : str -> outcome (list str)) (docx_path : str) : outcome str :=
  match Document docx_path with
  | Raise e => Raise e
  | Return paragraphs =>
      Return (join [nl] (filter (fun text => truthy (strip text)) paragraphs))
  end.

(* ================================================================== *)
(** ** The preview of the loaded text ([browse_file]) *)

(** [raw_text[:500] + "..." if len(raw_text) > 500 else raw_text]. *)
Definition preview (raw_text : str) : str :=
  if (len raw_text >? 500)%Z
  then firstn 500 raw_text ++ of_string "..."
  else raw_text.

(* ================================================================== *)
(** ** Further vocabulary *)

(** Consecutive groups are packed greedily: the first line of a group
    did not fit into the group before it. *)
Fixpoint greedy (max_chars : Z) (gs : list (list str)) : Prop :=
  match gs with
  | [] => True
  | g :: rest =>
      match rest with
      | [] => True
      | g' :: _ =>
          match g' with
          | [] => True
          | p :: _ => (max_chars < sum_len g + len p)%Z
          end
          /\ greedy max_chars rest
      end
  end.

(** The running group, when there is one. *)
Definition running (st : packer) : list (list str) :=
  match current st with
  | [] => []
  | _ :: _ => [current st]
  end.

(** What the loop over the pages collects in [texts]. *)
Definition page_texts (pages : list (option str)) : list str :=
  map or_empty pages.

(** A page without a text layer. *)
Definition textless (page : option str) : Prop :=
  page = None \/ page = Some [].

(** A paragraph that is more than whitespace. *)
Definition nonblank (text : str) : bool := truthy (strip text).

(** The loop invariant of [chunk_text] for greedy packing: [gs] are the
    groups of lines behind the closed segments after the lines [done]
    were consumed. *)
Record packed_greedy (max_chars : Z) (done : list str) (st : packer)
    (gs : list (list str)) : Prop := {
  pg_chunks : chunks st = map (join [nl]) gs;
  pg_cover : concat gs ++ current st = done;
  pg_count : count st = sum_len (current st);
  pg_first : current st = [] -> gs = [];
  pg_nonempty : Forall (fun g => g <> []) gs;
  pg_greedy : greedy max_chars (gs ++ running st)
}.

(** The shape the loop bodies of both versions of [summarize] share:
    report, call the backend, keep the partial summary. *)
Definition loop_body (notify : nat -> Py unit) (world : process_world)
    (model : str) : nat * str -> list str -> Py (list str) :=
  fun '(idx, chunk) summaries =>
    notify idx ;;;
    s <- summarize_with_ollama world chunk model ;;
    ret (summaries ++ [s]).

(** The report of [Cli.summarize] and that of [Gui.summarize]. *)
Definition cli_notify (total : nat) (idx : nat) : Py unit :=
  print (Cli.progress_line idx total).

Definition gui_notify (update_callback : option callback) (total : nat)
    (idx : nat) : Py unit :=
  match update_callback with
  | Some cb => call cb (Gui.progress_msg idx total)
  | None => ret tt
  end.

Definition is_run (ev : event) : bool :=
  match ev with
  | EvRun _ _ => true
  | _ => false
  end.

(** A report only adds to the log, and never a process run. *)
Definition reports (notify : nat -> Py unit) : Prop :=
  forall (idx : nat) (h : trace),
    exists t : trace,
      snd (notify idx h) = h ++ t /\ Forall (fun ev => is_run ev = false) t.

(* ================================================================== *)
(** ** Further sample inputs *)

Definition no_ollama : exn := Exn "FileNotFoundError" (of_string "ollama").

(** A world in which the first process starts and no later one does. *)
Definition world_fail_second : process_world :=
  fun h _ =>
    match h with
    | _ :: _ :: _ => Raise no_ollama
    | _ => Return proc_ok
    end.

(** A world in which no process can be started. *)
Definition world_never : process_world := fun _ _ => Raise no_ollama.

Definition sample_path : str := of_string "report.pdf".

(** Three pages, the second without text. *)
Definition sample_pages : list (option str) :=
  [Some line_pair; None; Some (of_string "c")].

(** A scan: no page has text. *)
Definition scan_pages : list (option str) := [None; Some []; None].

(** Four paragraphs, two of them blank. *)
Definition sample_paragraphs : list str :=
  [of_string "Title"; of_string "  "; []; of_string "Body"].

(* ================================================================== *)
(** * Properties *)

(** ** Splitting and joining *)

Lemma split_not_nil (sep : char) (s : str) : split sep s <> [].
Proof.
  destruct s as [|c s]; simpl; [discriminate|].
  destruct (N.eqb c sep); [discriminate|].
  destruct (split sep s); discriminate.
Qed.

Lemma join_cons (sep x : str) (y : str) (ys : list str) :
  join sep (x :: y :: ys) = x ++ sep ++ join sep (y :: ys).
Proof. reflexivity. Qed.

Lemma join_split (sep : char) (s : str) : join [sep] (split sep s) = s.
Proof.
  induction s as [|c s IH]; [reflexivity|].
  simpl. destruct (N.eqb_spec c sep) as [->|Hne].
  - pose proof (split_not_nil sep s) as Hnn.
    destruct (split sep s) as [|p ps]; [contradiction|].
    rewrite join_cons, IH. reflexivity.
  - destruct (split sep s) as [|p ps] eqn:E.
    + exfalso. eapply split_not_nil; eassumption.
    + destruct ps as [|q ps]; simpl in *; now rewrite <- IH.
Qed.

Lemma split_no_sep (sep : char) (s : str) :
  Forall (fun p => ~ In sep p) (split sep s).
Proof.
  induction s as [|c s IH]; simpl.
  - constructor; [intros []|constructor].
  - destruct (N.eqb_spec c sep) as [->|Hne].
    + constructor; [intros []|assumption].
    + destruct (split sep s) as [|p ps].
      * constructor; [|constructor]. intros [H|[]]. congruence.
      * inversion IH as [|? ? Hp Hps]; subst.
        constructor; [|assumption]. intros [H|H]; [congruence|auto].
Qed.

Lemma split_single (sep : char) (s : str) :
  ~ In sep s -> split sep s = [s].
Proof.
  induction s as [|c s IH]; intros Hn; [reflexivity|].
  simpl. destruct (N.eqb_spec c sep) as [->|Hne].
  - exfalso. apply Hn. now left.
  - rewrite IH; [reflexivity|]. intros H. apply Hn. now right.
Qed.

Lemma join_app (sep : str) (xs ys : list str) :
  xs <> [] -> ys <> [] ->
  join sep (xs ++ ys) = join sep xs ++ sep ++ join sep ys.
Proof.
  intros Hx Hy. induction xs as [|x xs IH]; [contradiction|].
  destruct xs as [|x' xs].
  - destruct ys as [|y ys]; [contradiction|]. reflexivity.
  - change ((x :: x' :: xs) ++ ys) with (x :: x' :: (xs ++ ys)).
    rewrite !join_cons.
    change (x' :: xs ++ ys) with ((x' :: xs) ++ ys).
    rewrite IH by discriminate. now rewrite <- !app_assoc.
Qed.

Lemma concat_not_nil (gs : list (list str)) :
  gs <> [] -> Forall (fun g => g <> []) gs -> concat gs <> [].
Proof.
  intros Hgs Hall. destruct gs as [|g gs]; [contradiction|].
  inversion Hall; subst. destruct g; [contradiction|discriminate].
Qed.

(** Joining the joins of non-empty groups is joining all their lines. *)
Lemma join_concat (sep : str) (gs : list (list str)) :
  Forall (fun g => g <> []) gs ->
  join sep (map (join sep) gs) = join sep (concat gs).
Proof.
  induction gs as [|g gs IH]; intros Hall; [reflexivity|].
  inversion Hall as [|? ? Hg Hgs]; subst.
  destruct gs as [|g' gs].
  - simpl. now rewrite app_nil_r.
  - change (map (join sep) (g :: g' :: gs))
      with (join sep g :: join sep g' :: map (join sep) gs).
    rewrite join_cons.
    change (join sep g' :: map (join sep) gs) with (map (join sep) (g' :: gs)).
    rewrite IH by assumption.
    change (concat (g :: g' :: gs)) with (g ++ concat (g' :: gs)).
    rewrite join_app; [reflexivity|assumption|].
    apply concat_not_nil; [discriminate|assumption].
Qed.

(** ** The packing loop *)

Lemma sum_len_app (g h : list str) :
  sum_len (g ++ h) = (sum_len g + sum_len h)%Z.
Proof. induction g as [|p g IH]; simpl; [reflexivity|]. rewrite IH. lia. Qed.

Lemma sum_len_nonneg (g : list str) : (0 <= sum_len g)%Z.
Proof. induction g as [|p g IH]; simpl; unfold len; lia. Qed.

Lemma truthy_true {A : Type} (l : list A) : truthy l = true <-> l <> [].
Proof. destruct l; simpl; split; congruence. Qed.

Lemma truthy_false {A : Type} (l : list A) : truthy l = false <-> l = [].
Proof. destruct l; simpl; split; congruence. Qed.

Lemma within_single (max_chars : Z) (p : str) : within max_chars [p].
Proof.
  destruct (Z_le_gt_dec (len p) max_chars) as [H|H].
  - left. simpl. lia.
  - right. exists p. split; [reflexivity|lia].
Qed.

Lemma packed_init (max_chars : Z) : packed max_chars [] (Packer [] [] 0) [].
Proof. constructor; simpl; auto. Qed.

Lemma packed_step (max_chars : Z) (done : list str) (st : packer)
    (gs : list (list str)) (p : str) :
  packed max_chars done st gs ->
  exists gs', packed max_chars (done ++ [p]) (chunk_step max_chars st p) gs'.
Proof.
  intros [Hc Hd Hn Hw Hk Hcur]. unfold chunk_step.
  destruct ((count st + len p >? max_chars)%Z && truthy (current st)) eqn:E.
  - apply andb_true_iff in E as [_ Ht]. apply truthy_true in Ht.
    exists (gs ++ [current st]). constructor; simpl.
    + now rewrite Hc, map_app.
    + rewrite concat_app. simpl. now rewrite app_nil_r, <- Hd.
    + apply Forall_app. split; [assumption|]. now constructor.
    + apply Forall_app. split; [assumption|]. constructor; [|constructor].
      destruct Hcur as [Hcur|Hcur]; [contradiction|assumption].
    + lia.
    + right. apply within_single.
  - exists gs. constructor; simpl; try assumption.
    + now rewrite <- Hd, app_assoc.
    + rewrite sum_len_app, Hk. simpl. lia.
    + right. apply andb_false_iff in E as [E|E].
      * left. rewrite sum_len_app, <- Hk. simpl. lia.
      * apply truthy_false in E. rewrite E. apply within_single.
Qed.

Lemma packed_fold (max_chars : Z) (paras done : list str) (st : packer)
    (gs : list (list str)) :
  packed max_chars done st gs ->
  exists gs',
    packed max_chars (done ++ paras)
      (fold_left (chunk_step max_chars) paras st) gs'.
Proof.
  revert done st gs. induction paras as [|p paras IH]; intros done st gs H.
  - exists gs. now rewrite app_nil_r.
  - destruct (packed_step p H) as [gs1 H1].
    destruct (IH _ _ _ H1) as [gs2 H2].
    exists gs2. simpl. now rewrite <- app_assoc in H2.
Qed.

Lemma chunk_step_current (max_chars : Z) (st : packer) (p : str) :
  current (chunk_step max_chars st p) <> [].
Proof.
  unfold chunk_step.
  destruct ((count st + len p >? max_chars)%Z && truthy (current st)); simpl.
  - discriminate.
  - destruct (current st); discriminate.
Qed.

Lemma fold_current (max_chars : Z) (paras : list str) (st : packer) :
  paras <> [] ->
  current (fold_left (chunk_step max_chars) paras st) <> [].
Proof.
  revert st. induction paras as [|p paras IH]; intros st Hne; [contradiction|].
  simpl. destruct paras as [|q paras].
  - apply chunk_step_current.
  - apply IH. discriminate.
Qed.

(** The segments are the joins of non-empty groups of consecutive
    lines; the groups, in order, make up the lines of the text, and
    each respects the budget or is a single over-long line. *)
Lemma chunk_text_groups (text : str) (max_chars : Z) :
  exists gs : list (list str),
    chunk_text text max_chars = map (join [nl]) gs
    /\ concat gs = split nl text
    /\ gs <> []
    /\ Forall (fun g => g <> []) gs
    /\ Forall (within max_chars) gs.
Proof.
  unfold chunk_text.
  destruct (packed_fold (split nl text) (packed_init max_chars))
    as [gs [Hc Hd Hn Hw Hk Hcur]].
  pose proof (@fold_current max_chars (split nl text) (Packer [] [] 0)
                (@split_not_nil nl text)) as Hne.
  simpl in Hd.
  set (st := fold_left (chunk_step max_chars) (split nl text) (Packer [] [] 0)) in *.
  destruct (current st) as [|q qs] eqn:Ecur; [contradiction|].
  simpl truthy. cbv iota.
  exists (gs ++ [q :: qs]). repeat split.
  - now rewrite Hc, map_app.
  - rewrite concat_app. simpl. now rewrite app_nil_r.
  - destruct gs; discriminate.
  - apply Forall_app. split; [assumption|]. constructor; [discriminate|constructor].
  - apply Forall_app. split; [assumption|]. constructor; [|constructor].
    destruct Hcur as [Hcur|Hcur]; [discriminate|assumption].
Qed.

(** ** Segments of [chunk_text] *)

Lemma content_length_app (s t : str) :
  content_length (s ++ t) = (content_length s + content_length t)%Z.
Proof.
  unfold content_length, len.
  now rewrite filter_app, length_app, Nat2Z.inj_add.
Qed.

Lemma content_length_line (p : str) :
  ~ In nl p -> content_length p = len p.
Proof.
  intros Hn. unfold content_length. f_equal.
  induction p as [|c p IH]; [reflexivity|]. simpl.
  destruct (N.eqb_spec c nl) as [->|Hne].
  - exfalso. apply Hn. now left.
  - simpl. rewrite IH; [reflexivity|]. intros H. apply Hn. now right.
Qed.

Lemma content_length_join (g : list str) :
  Forall (fun p => ~ In nl p) g ->
  content_length (join [nl] g) = sum_len g.
Proof.
  induction g as [|p g IH]; intros Hall; [reflexivity|].
  inversion Hall as [|? ? Hp Hg]; subst.
  destruct g as [|q g].
  - simpl. rewrite content_length_line by assumption. lia.
  - rewrite join_cons, !content_length_app, IH by assumption.
    rewrite content_length_line by assumption.
    change (content_length [nl]) with 0%Z.
    change (sum_len (p :: q :: g)) with (len p + sum_len (q :: g))%Z. lia.
Qed.

Lemma Forall_concat_inv {A : Type} (P : A -> Prop) (gs : list (list A)) :
  Forall P (concat gs) -> Forall (Forall P) gs.
Proof.
  induction gs as [|g gs IH]; simpl; intros H; [constructor|].
  apply Forall_app in H as [Hg Hgs]. constructor; auto.
Qed.

Lemma sum_len_In (g : list str) (p : str) :
  In p g -> (len p <= sum_len g)%Z.
Proof.
  induction g as [|q g IH]; [intros []|]. intros [->|H]; simpl.
  - pose proof (sum_len_nonneg g). lia.
  - specialize (IH H). unfold len in *. lia.
Qed.

(** C1, as amended: the budget bounds the characters of a segment with
    the newlines between its lines left out (the loop adds up line
    lengths only); the one exception is a segment that is a single
    line of the text longer than the budget. *)
Theorem chunk_text_budget (text : str) (budget : Z) (seg : str) :
  In seg (chunk_text text budget) ->
  (content_length seg <= budget)%Z
  \/ (In seg (split nl text) /\ (budget < len seg)%Z).
Proof.
  intros Hin.
  destruct (chunk_text_groups text budget) as (gs & Hc & Hcat & _ & _ & Hw).
  rewrite Hc in Hin. apply in_map_iff in Hin as (g & <- & Hg).
  pose proof (split_no_sep nl text) as Hns. rewrite <- Hcat in Hns.
  apply Forall_concat_inv in Hns.
  rewrite Forall_forall in Hw, Hns.
  destruct (Hw g Hg) as [Hle|(p & -> & Hlt)].
  - left. rewrite content_length_join by auto. assumption.
  - right. simpl. split; [|assumption].
    rewrite <- Hcat. apply in_concat. exists [p]. split; [assumption|now left].
Qed.

(** C2: joining the segments with newlines gives the text back, and
    the segments are the newline-joins of consecutive non-empty runs of
    its lines, in order. *)
Theorem chunk_text_cover (text : str) (budget : Z) :
  join [nl] (chunk_text text budget) = text
  /\ exists runs : list (list str),
       concat runs = split nl text
       /\ Forall (fun run => run <> []) runs
       /\ chunk_text text budget = map (join [nl]) runs.
Proof.
  destruct (chunk_text_groups text budget) as (gs & Hc & Hcat & _ & Hn & _).
  split.
  - rewrite Hc, join_concat, Hcat by assumption. apply join_split.
  - exists gs. auto.
Qed.

(** C3, as amended: the empty text gives the one-segment sequence
    holding the empty string, and no text gives an empty sequence. *)
Theorem chunk_text_nonempty (budget : Z) :
  chunk_text [] budget = [[]]
  /\ forall text : str, chunk_text text budget <> [].
Proof.
  split.
  - unfold chunk_text, chunk_step. simpl. now rewrite andb_false_r.
  - intros text.
    destruct (chunk_text_groups text budget) as (gs & Hc & _ & Hne & _).
    rewrite Hc. destruct gs; [contradiction|discriminate].
Qed.

(** C9: a text that is one line longer than the budget comes back as
    the single segment holding that line; and in any text a line longer
    than the budget is a segment by itself, never cut. *)
Theorem chunk_text_overlong_line (text : str) (budget : Z) :
  (~ In nl text -> (budget < len text)%Z -> chunk_text text budget = [text])
  /\ (forall p : str,
        In p (split nl text) -> (budget < len p)%Z ->
        In p (chunk_text text budget)).
Proof.
  split.
  - intros Hn _. unfold chunk_text. rewrite split_single by assumption.
    unfold chunk_step. simpl. now rewrite andb_false_r.
  - intros p Hp Hlt.
    destruct (chunk_text_groups text budget) as (gs & Hc & Hcat & _ & _ & Hw).
    rewrite <- Hcat in Hp. apply in_concat in Hp as (g & Hg & Hpg).
    rewrite Forall_forall in Hw.
    rewrite Hc. apply in_map_iff. exists g. split; [|assumption].
    destruct (Hw g Hg) as [Hle|(q & -> & _)].
    + pose proof (sum_len_In _ _ Hpg). lia.
    + destruct Hpg as [->|[]]. reflexivity.
Qed.

(** ** The call to the backend *)

Lemma summarize_with_ollama_eq (world : process_world) (text model : str)
    (h : trace) :
  summarize_with_ollama world text model h =
  let argv := ollama_argv text model in
  let r := world h argv in
  (match r with
   | Return proc => Return (output_of proc)
   | Raise e => Raise e
   end, h ++ [EvRun argv r]).
Proof.
  unfold summarize_with_ollama, bind, subprocess_run, ret. cbv zeta.
  destruct (world h (ollama_argv text model)); reflexivity.
Qed.

Lemma strip_nil : strip [] = [].
Proof. reflexivity. Qed.

(** C5, as amended: the choice between the streams looks at the
    primary stream as captured, before trimming.  Whenever it is not
    empty the result is its trimmed contents, which is the empty string
    when it holds only whitespace; the trimmed diagnostic stream is the
    result only when the primary stream is empty. *)
Theorem summarize_with_ollama_output (world : process_world)
    (text model : str) (h : trace) (proc : CompletedProcess) :
  world h (ollama_argv text model) = Return proc ->
  exists out : str,
    fst (summarize_with_ollama world text model h) = Return out
    /\ (stdout proc <> [] -> out = strip (stdout proc))
    /\ (stdout proc = [] -> out = strip (stderr proc))
    /\ (strip (stdout proc) <> [] -> out = strip (stdout proc)).
Proof.
  intros Hw. rewrite summarize_with_ollama_eq. cbv zeta. rewrite Hw.
  exists (output_of proc). unfold output_of. simpl.
  destruct (stdout proc) as [|c s] eqn:E; simpl; repeat split;
    intros H; try reflexivity; try congruence.
  now rewrite strip_nil in H.
Qed.

(** C10: two runs whose processes leave the same two streams give the
    same result, whatever their exit statuses. *)
Theorem exit_status_ignored (world1 world2 : process_world)
    (text model : str) (h1 h2 : trace) (p1 p2 : CompletedProcess) :
  world1 h1 (ollama_argv text model) = Return p1 ->
  world2 h2 (ollama_argv text model) = Return p2 ->
  stdout p1 = stdout p2 ->
  stderr p1 = stderr p2 ->
  returncode p1 <> returncode p2 ->
  fst (summarize_with_ollama world1 text model h1)
  = fst (summarize_with_ollama world2 text model h2).
Proof.
  intros H1 H2 Hout Herr _. rewrite !summarize_with_ollama_eq. cbv zeta.
  rewrite H1, H2. unfold output_of. simpl. now rewrite Hout, Herr.
Qed.

(** ** The loop of [summarize] *)

Lemma cli_summarize_eq (world : process_world) (text model : str) :
  Cli.summarize world text model =
  let chunks := chunk_text text default_max_chars in
  summaries <- for_each (enumerate chunks 1)
                 (cli_body world model (length chunks)) [] ;;
  ret (join [nl; nl] summaries).
Proof. reflexivity. Qed.

Lemma gui_summarize_eq (world : process_world) (text model : str)
    (update_callback : option callback) :
  Gui.summarize world text model update_callback =
  let chunks := chunk_text text default_max_chars in
  summaries <- for_each (enumerate chunks 1)
                 (gui_body world model update_callback (length chunks)) [] ;;
  ret (join [nl; nl] summaries).
Proof. reflexivity. Qed.

Lemma cli_loop_cons (world : process_world) (model : str) (total : nat)
    (c : str) (cs : list str) (idx : nat) (acc : list str) (h : trace) :
  for_each (enumerate (c :: cs) idx) (cli_body world model total) acc h =
  let h1 := h ++ [EvPrint (Cli.progress_line idx total)] in
  let rp := world h1 (ollama_argv c model) in
  let h2 := h1 ++ [EvRun (ollama_argv c model) rp] in
  match rp with
  | Raise e => (Raise e, h2)
  | Return proc =>
      for_each (enumerate cs (S idx)) (cli_body world model total)
        (acc ++ [output_of proc]) h2
  end.
Proof.
  cbn [enumerate for_each cli_body]. unfold bind at 1 2. unfold print.
  unfold bind at 1. rewrite summarize_with_ollama_eq. cbv zeta.
  destruct (world _ _); reflexivity.
Qed.

Lemma gui_loop_cons (world : process_world) (model : str) (cb : callback)
    (total : nat) (c : str) (cs : list str) (idx : nat) (acc : list str)
    (h : trace) :
  for_each (enumerate (c :: cs) idx) (gui_body world model (Some cb) total)
    acc h =
  let rc := cb h (Gui.progress_msg idx total) in
  let h1 := h ++ [EvCallback (Gui.progress_msg idx total) rc] in
  match rc with
  | Raise e => (Raise e, h1)
  | Return _ =>
      let rp := world h1 (ollama_argv c model) in
      let h2 := h1 ++ [EvRun (ollama_argv c model) rp] in
      match rp with
      | Raise e => (Raise e, h2)
      | Return proc =>
          for_each (enumerate cs (S idx)) (gui_body world model (Some cb) total)
            (acc ++ [output_of proc]) h2
      end
  end.
Proof.
  cbn [enumerate for_each gui_body]. unfold bind at 1 2. unfold call.
  cbv zeta. destruct (cb h _); [|reflexivity].
  unfold bind at 1. rewrite summarize_with_ollama_eq. cbv zeta.
  destruct (world _ _); reflexivity.
Qed.

(** *** The empty text *)

(** C4, as amended: on the empty text [chunk_text] gives one empty
    segment, so [summarize] reports progress once (part 1 of 1), calls
    the backend once on the empty segment, and returns what that call
    gives: its output, or its exception. *)
Theorem summarize_empty (world : process_world) (model : str) (h : trace) :
  Cli.summarize world [] model h =
    (let h1 := h ++ [EvPrint (Cli.progress_line 1 1)] in
     let r := world h1 (ollama_argv [] model) in
     (match r with
      | Return proc => Return (output_of proc)
      | Raise e => Raise e
      end, h1 ++ [EvRun (ollama_argv [] model) r]))
  /\ forall cb : callback,
       Gui.summarize world [] model (Some cb) h =
         (let rc := cb h (Gui.progress_msg 1 1) in
          let h1 := h ++ [EvCallback (Gui.progress_msg 1 1) rc] in
          match rc with
          | Raise e => (Raise e, h1)
          | Return _ =>
              let r := world h1 (ollama_argv [] model) in
              (match r with
               | Return proc => Return (output_of proc)
               | Raise e => Raise e
               end, h1 ++ [EvRun (ollama_argv [] model) r])
          end).
Proof.
  split; [|intros cb].
  - rewrite cli_summarize_eq.
    change (chunk_text [] default_max_chars) with [@nil char].
    cbv zeta. unfold bind at 1. change (length [@nil char]) with 1.
    rewrite cli_loop_cons. cbv zeta.
    destruct (world _ _); reflexivity.
  - rewrite gui_summarize_eq.
    change (chunk_text [] default_max_chars) with [@nil char].
    cbv zeta. unfold bind at 1. change (length [@nil char]) with 1.
    rewrite gui_loop_cons. cbv zeta.
    destruct (cb h _); [|reflexivity].
    destruct (world _ _); reflexivity.
Qed.

(** *** Order of the partial summaries *)

Lemma cli_loop_function (world : process_world)
    (backend : list str -> CompletedProcess) (model : str) (total : nat) :
  (forall h argv, world h argv = Return (backend argv)) ->
  forall (cs : list str) (idx : nat) (acc : list str) (h : trace),
    for_each (enumerate cs idx) (cli_body world model total) acc h =
    (Return (acc ++ map (fun c => output_of (backend (ollama_argv c model))) cs),
     h ++ flat_map (cli_events backend model total) (enumerate cs idx)).
Proof.
  intros Hw. induction cs as [|c cs IH]; intros idx acc h.
  - simpl. unfold ret. now rewrite !app_nil_r.
  - rewrite cli_loop_cons. cbv zeta. rewrite Hw, IH. simpl.
    now rewrite <- !app_assoc.
Qed.

(** C8: when the backend behaves as a function of the call, the
    result of [summarize] is the partial summaries of the segments, the
    i-th one made from the i-th segment, in segment order and joined by
    two newline characters. *)
Theorem summarize_joins_in_order (world : process_world)
    (backend : list str -> CompletedProcess) (text model : str) (h : trace) :
  (forall h' argv, world h' argv = Return (backend argv)) ->
  let chunks := chunk_text text default_max_chars in
  let invoke := fun chunk => output_of (backend (ollama_argv chunk model)) in
  Cli.summarize world text model h =
  (Return (join [nl; nl] (map invoke chunks)),
   h ++ flat_map (cli_events backend model (length chunks))
          (enumerate chunks 1)).
Proof.
  intros Hw chunks invoke. rewrite cli_summarize_eq. cbv zeta.
  unfold bind at 1. fold chunks.
  rewrite (@cli_loop_function world backend model (length chunks) Hw).
  reflexivity.
Qed.

(** *** Progress reports *)

Lemma gui_loop_returns (world : process_world) (model : str) (cb : callback)
    (total : nat) (cs : list str) :
  forall (idx : nat) (acc : list str) (h : trace) (summaries : list str)
         (h' : trace),
    for_each (enumerate cs idx) (gui_body world model (Some cb) total) acc h
    = (Return summaries, h') ->
    exists procs : list CompletedProcess,
      length procs = length cs
      /\ h' = h ++ flat_map (gui_events model total)
                     (combine (enumerate cs idx) procs)
      /\ summaries = acc ++ map output_of procs.
Proof.
  induction cs as [|c cs IH]; intros idx acc h summaries h' Hrun.
  - simpl in Hrun. unfold ret in Hrun. inversion Hrun; subst.
    exists []. simpl. now rewrite !app_nil_r.
  - rewrite gui_loop_cons in Hrun. cbv zeta in Hrun.
    destruct (cb h _) as [[]|e] eqn:Ecb; [|discriminate].
    destruct (world _ _) as [proc|e] eqn:Ew; [|discriminate].
    apply IH in Hrun as (procs & Hlen & Hh & Hs).
    exists (proc :: procs). simpl. repeat split.
    + now rewrite Hlen.
    + rewrite Hh. now rewrite <- !app_assoc.
    + rewrite Hs. now rewrite <- app_assoc.
Qed.

Lemma callback_messages_gui (model : str) (total : nat) (cs : list str) :
  forall (idx : nat) (procs : list CompletedProcess),
    length procs = length cs ->
    callback_messages
      (flat_map (gui_events model total) (combine (enumerate cs idx) procs))
    = map (fun i => Gui.progress_msg i total) (seq idx (length cs)).
Proof.
  induction cs as [|c cs IH]; intros idx [|proc procs] Hlen;
    try discriminate; [reflexivity|].
  simpl. f_equal. apply IH. simpl in Hlen. congruence.
Qed.

(** *** An exception from the callback *)

Lemma for_each_gui_extends (world : process_world) (model : str)
    (cb : callback) (total : nat) (cs : list str) :
  forall (idx : nat) (acc : list str) (h : trace),
    exists t : trace,
      snd (for_each (enumerate cs idx) (gui_body world model (Some cb) total)
             acc h) = h ++ t.
Proof.
  induction cs as [|c cs IH]; intros idx acc h.
  - exists []. simpl. now rewrite app_nil_r.
  - rewrite gui_loop_cons. cbv zeta.
    destruct (cb h _) as [[]|e]; [|eexists; reflexivity].
    destruct (world _ _) as [proc|e].
    + destruct (IH (S idx) (acc ++ [output_of proc])
                  ((h ++ [EvCallback (Gui.progress_msg idx total) (Return tt)])
                   ++ [EvRun (ollama_argv c model) (Return proc)]))
        as [t Ht].
      rewrite Ht. rewrite <- !app_assoc. eexists; reflexivity.
    + rewrite <- !app_assoc. eexists; reflexivity.
Qed.

Lemma gui_loop_raise (world : process_world) (model : str) (cb : callback)
    (total : nat) (cs : list str) :
  forall (idx : nat) (acc : list str) (h : trace)
         (r : outcome (list str)) (t : trace) (msg : str) (e : exn),
    for_each (enumerate cs idx) (gui_body world model (Some cb) total) acc h
    = (r, h ++ t) ->
    In (EvCallback msg (Raise e)) t ->
    r = Raise e /\ exists t0, t = t0 ++ [EvCallback msg (Raise e)].
Proof.
  induction cs as [|c cs IH]; intros idx acc h r t msg e Hrun Hin.
  - simpl in Hrun. unfold ret in Hrun. inversion Hrun as [[Hr Ht]].
    rewrite <- (app_nil_r h) in Ht at 1. apply app_inv_head in Ht.
    subst t. destruct Hin.
  - rewrite gui_loop_cons in Hrun. cbv zeta in Hrun.
    destruct (cb h _) as [[]|e1] eqn:Ecb.
    + destruct (world _ _) as [proc|e2] eqn:Ew.
      * destruct (for_each_gui_extends world model cb total cs (S idx)
                    (acc ++ [output_of proc])
                    ((h ++ [EvCallback (Gui.progress_msg idx total) (Return tt)])
                     ++ [EvRun (ollama_argv c model) (Return proc)]))
          as [t1 Ht1].
        rewrite Hrun in Ht1. simpl in Ht1.
        rewrite <- !app_assoc in Ht1. apply app_inv_head in Ht1. subst t.
        simpl in Hin. destruct Hin as [Hin|[Hin|Hin]]; try discriminate.
        rewrite !app_assoc in Hrun.
        destruct (IH _ _ _ _ _ _ _ Hrun Hin) as [Hr [t0 Ht0]].
        split; [assumption|]. subst t1.
        exists ([EvCallback (Gui.progress_msg idx total) (Return tt);
                 EvRun (ollama_argv c model) (Return proc)] ++ t0).
        reflexivity.
      * inversion Hrun as [[Hr Ht]].
        rewrite <- !app_assoc in Ht. apply app_inv_head in Ht. subst t.
        simpl in Hin. destruct Hin as [Hin|[Hin|[]]]; discriminate.
    + inversion Hrun as [[Hr Ht]]. apply app_inv_head in Ht. subst t.
      destruct Hin as [Hin|[]]. inversion Hin; subst.
      split; [reflexivity|]. exists []. reflexivity.
Qed.

(** C6, as amended: [summarize] does not guard the callback.  When an
    invocation of the callback raises, the run ends there with that
    same exception: it is the last thing the run does, no backend call
    follows it, and no summary is returned. *)
Theorem summarize_callback_raises (world : process_world) (cb : callback)
    (text model : str) (h : trace) (r : outcome str) (t : trace)
    (msg : str) (e : exn) :
  Gui.summarize world text model (Some cb) h = (r, h ++ t) ->
  In (EvCallback msg (Raise e)) t ->
  r = Raise e /\ exists t0, t = t0 ++ [EvCallback msg (Raise e)].
Proof.
  intros Hrun Hin. rewrite gui_summarize_eq in Hrun. cbv zeta in Hrun.
  unfold bind at 1 in Hrun.
  destruct (for_each _ _ _ h) as [[summaries|e1] h1] eqn:Eloop.
  - unfold ret in Hrun. inversion Hrun; subst h1.
    destruct (@gui_loop_raise _ _ _ _ _ _ _ _ _ _ _ _ Eloop Hin) as [Hr _].
    discriminate.
  - inversion Hrun; subst h1 r.
    destruct (@gui_loop_raise _ _ _ _ _ _ _ _ _ _ _ _ Eloop Hin) as [Hr Ht].
    split; [congruence|assumption].
Qed.

(** The progress messages of one run tell the indices apart. *)
Lemma of_string_inj (s t : String.string) : of_string s = of_string t -> s = t.
Proof.
  unfold of_string. intros H. apply (f_equal (map ascii_of_N)) in H.
  rewrite !map_map in H.
  rewrite !(map_ext _ (fun a => a) ascii_N_embedding), !map_id in H.
  apply (f_equal String.string_of_list_ascii) in H.
  now rewrite !String.string_of_list_ascii_of_string in H.
Qed.

Lemma decimal_inj (i j : nat) : decimal i = decimal j -> i = j.
Proof.
  unfold decimal. intros H. apply of_string_inj in H.
  apply (f_equal NilEmpty.uint_of_string) in H.
  rewrite !NilEmpty.usu in H. injection H as H.
  now apply DecimalNat.Unsigned.to_uint_inj.
Qed.

Lemma progress_msg_inj (i j total : nat) :
  Gui.progress_msg i total = Gui.progress_msg j total -> i = j.
Proof.
  unfold Gui.progress_msg, fraction. intros H.
  apply app_inv_head, app_inv_tail, app_inv_tail in H.
  now apply decimal_inj.
Qed.

(** *** Progress reports of every run *)

Lemma progress_msg_text (idx total : nat) :
  Gui.progress_msg idx total
  = of_string "Summarizing part " ++ decimal idx ++ of_string "/"
    ++ decimal total ++ of_string "...".
Proof.
  unfold Gui.progress_msg, fraction. now rewrite <- !app_assoc.
Qed.

Lemma decimal_digits (d : Decimal.uint) :
  Forall (fun c : char => c <> 47%N) (of_string (NilEmpty.string_of_uint d)).
Proof.
  induction d; simpl; constructor; try discriminate; assumption.
Qed.

Lemma app_sep_inj (sep : char) (a a' b b' : str) :
  ~ In sep a -> ~ In sep a' ->
  a ++ sep :: b = a' ++ sep :: b' -> a = a' /\ b = b'.
Proof.
  revert a'. induction a as [|x a IH]; intros [|x' a'] Ha Ha' H; simpl in H.
  - injection H as ->. auto.
  - injection H as <- _. exfalso. apply Ha'. now left.
  - injection H as -> _. exfalso. apply Ha. now left.
  - injection H as -> H.
    destruct (IH a') as [-> ->]; auto; intros Hin;
      [apply Ha|apply Ha']; now right.
Qed.

(** A progress message names its index and its total: both can be read
    back from it. *)
Lemma progress_msg_reads (i j n m : nat) :
  Gui.progress_msg i n = Gui.progress_msg j m -> i = j /\ n = m.
Proof.
  unfold Gui.progress_msg, fraction. intros H.
  apply app_inv_head, app_inv_tail in H.
  change (of_string "/" ++ decimal n) with (47%N :: decimal n) in H.
  change (of_string "/" ++ decimal m) with (47%N :: decimal m) in H.
  apply app_sep_inj in H as [Hi Hn].
  - split; now apply decimal_inj.
  - intros Hin. pose proof (decimal_digits (Nat.to_uint i)) as Hd.
    rewrite Forall_forall in Hd. exact (Hd _ Hin eq_refl).
  - intros Hin. pose proof (decimal_digits (Nat.to_uint j)) as Hd.
    rewrite Forall_forall in Hd. exact (Hd _ Hin eq_refl).
Qed.

Lemma callback_messages_app (t1 t2 : trace) :
  callback_messages (t1 ++ t2) = callback_messages t1 ++ callback_messages t2.
Proof. unfold callback_messages. apply flat_map_app. Qed.

(** Whatever its outcome, the loop has called the callback for the
    first [k] segments, in order, and for all of them when it returns. *)
Lemma gui_loop_progress (world : process_world) (model : str) (cb : callback)
    (total : nat) (cs : list str) :
  forall (idx : nat) (acc : list str) (h : trace)
         (r : outcome (list str)) (t : trace),
    for_each (enumerate cs idx) (gui_body world model (Some cb) total) acc h
    = (r, h ++ t) ->
    exists k : nat,
      k <= length cs
      /\ callback_messages t
         = map (fun i => Gui.progress_msg i total) (seq idx k)
      /\ (forall summaries, r = Return summaries -> k = length cs).
Proof.
  induction cs as [|c cs IH]; intros idx acc h r t Hrun.
  - simpl in Hrun. unfold ret in Hrun. inversion Hrun as [[Hr Ht]].
    rewrite <- (app_nil_r h) in Ht at 1. apply app_inv_head in Ht. subst t.
    exists 0. repeat split; auto.
  - rewrite gui_loop_cons in Hrun. cbv zeta in Hrun.
    destruct (cb h _) as [[]|e1] eqn:Ecb.
    + destruct (world _ _) as [proc|e2] eqn:Ew.
      * destruct (for_each_gui_extends world model cb total cs (S idx)
                    (acc ++ [output_of proc])
                    ((h ++ [EvCallback (Gui.progress_msg idx total) (Return tt)])
                     ++ [EvRun (ollama_argv c model) (Return proc)]))
          as [t1 Ht1].
        rewrite Hrun in Ht1. simpl in Ht1.
        rewrite <- !app_assoc in Ht1. apply app_inv_head in Ht1. subst t.
        rewrite !app_assoc in Hrun.
        destruct (IH _ _ _ _ _ Hrun) as (k & Hk & Hmsgs & Hall).
        exists (S k). split; [simpl; lia|]. split.
        -- change ([EvCallback (Gui.progress_msg idx total) (Return tt)]
                   ++ [EvRun (ollama_argv c model) (Return proc)] ++ t1)
             with ([EvCallback (Gui.progress_msg idx total) (Return tt);
                    EvRun (ollama_argv c model) (Return proc)] ++ t1).
           rewrite callback_messages_app, Hmsgs. reflexivity.
        -- intros summaries Hr. simpl. f_equal. eapply Hall. exact Hr.
      * inversion Hrun as [[Hr Ht]].
        rewrite <- !app_assoc in Ht. apply app_inv_head in Ht. subst t.
        exists 1. split; [simpl; lia|]. split; [reflexivity|].
        intros summaries Hr'. discriminate.
    + inversion Hrun as [[Hr Ht]]. apply app_inv_head in Ht. subst t.
      exists 1. split; [simpl; lia|]. split; [reflexivity|].
      intros summaries Hr'. discriminate.
Qed.

(** C7, as amended: in a run of [summarize] over N segments the
    callback is called for the segments started, in order, each time
    with the one message "Summarizing part i/N..." that carries the
    1-based index i and the total N: k calls with the indices 1 to k,
    k at most N.  A run that comes to its end (no callback call and no
    backend start raised) has called it exactly N times, each call
    right before the backend call of the segment it announces. *)
Theorem summarize_progress (world : process_world) (cb : callback)
    (text model : str) (h : trace) (r : outcome str) (t : trace) :
  Gui.summarize world text model (Some cb) h = (r, h ++ t) ->
  let chunks := chunk_text text default_max_chars in
  let N := length chunks in
  let message := fun idx : nat =>
    of_string "Summarizing part " ++ decimal idx ++ of_string "/"
    ++ decimal N ++ of_string "..." in
  let events := fun x : nat * str * CompletedProcess =>
    let '(idx, chunk, proc) := x in
    [EvCallback (message idx) (Return tt);
     EvRun (ollama_argv chunk model) (Return proc)] in
  exists k : nat,
    k <= N
    /\ callback_messages t = map message (seq 1 k)
    /\ (forall s : str,
          r = Return s ->
          k = N
          /\ exists procs : list CompletedProcess,
               length procs = N
               /\ t = flat_map events (combine (enumerate chunks 1) procs)
               /\ s = join [nl; nl] (map output_of procs)).
Proof.
  intros Hrun chunks N message events.
  assert (Hmsg : forall idx, Gui.progress_msg idx N = message idx)
    by (intros idx; apply progress_msg_text).
  assert (Hev : forall x, gui_events model N x = events x).
  { intros [[idx chunk] proc]. unfold gui_events, events.
    now rewrite Hmsg. }
  rewrite gui_summarize_eq in Hrun. cbv zeta in Hrun.
  fold chunks in Hrun. fold N in Hrun. unfold bind at 1 in Hrun.
  destruct (for_each _ _ _ h) as [[summaries|e] h1] eqn:Eloop.
  - unfold ret in Hrun. inversion Hrun; subst r h1.
    destruct (@gui_loop_progress _ _ _ _ _ _ _ _ _ _ Eloop) as (k & Hk & Hmsgs & Hall).
    exists k. split; [exact Hk|]. split.
    + rewrite Hmsgs. apply map_ext. exact Hmsg.
    + intros s Hs. split; [eapply Hall; reflexivity|].
      apply gui_loop_returns in Eloop as (procs & Hlen & Hh & Hsum).
      apply app_inv_head in Hh.
      exists procs. split; [exact Hlen|]. split.
      * rewrite Hh. apply flat_map_ext. exact Hev.
      * injection Hs as <-. now rewrite Hsum.
  - inversion Hrun; subst r h1.
    destruct (@gui_loop_progress _ _ _ _ _ _ _ _ _ _ Eloop) as (k & Hk & Hmsgs & _).
    exists k. split; [exact Hk|]. split.
    + rewrite Hmsgs. apply map_ext. exact Hmsg.
    + intros s Hs. discriminate.
Qed.

Lemma summarize_completes (world : process_world) (cb : callback)
    (text model : str) (h : trace) :
  (forall h' msg, cb h' msg = Return tt) ->
  (forall h' argv, exists proc, world h' argv = Return proc) ->
  exists (s : str) (h' : trace),
    Gui.summarize world text model (Some cb) h = (Return s, h').
Proof.
  intros Hcb Hw. rewrite gui_summarize_eq. cbv zeta.
  generalize (length (chunk_text text default_max_chars)). intros total.
  assert (Hloop : forall cs idx acc h0, exists summaries h1,
             for_each (enumerate cs idx)
               (gui_body world model (Some cb) total) acc h0
             = (Return summaries, h1)).
  { induction cs as [|c cs IH]; intros idx acc h0.
    - now exists acc, h0.
    - rewrite gui_loop_cons. cbv zeta. rewrite Hcb.
      destruct (Hw (h0 ++ [EvCallback (Gui.progress_msg idx total) (Return tt)])
                  (ollama_argv c model)) as [proc ->].
      apply IH. }
  destruct (Hloop (chunk_text text default_max_chars) 1 [] h)
    as (summaries & h1 & E).
  unfold bind at 1. rewrite E. now eexists; eexists.
Qed.

(* ================================================================== *)
(** * Concrete runs *)

Ltac no_newline :=
  let H := fresh in
  intros H; cbv in H;
  repeat (destruct H as [H|H]; [discriminate H|]); exact H.

(** The scenario of three lines under a budget of five characters. *)
Example chunk_text_three_lines :
  chunk_text (of_string "Line one." ++ [nl] ++ of_string "Line two."
              ++ [nl] ++ of_string "Line three.") 5
  = [of_string "Line one."; of_string "Line two."; of_string "Line three."].
Proof. reflexivity. Qed.

(** Lines packed together, an over-long line on its own, and an empty
    line kept. *)
Example chunk_text_mixed :
  chunk_text (of_string "ab" ++ [nl] ++ of_string "cd" ++ [nl]
              ++ six_chars ++ [nl; nl] ++ of_string "k") 5
  = [of_string "ab" ++ [nl] ++ of_string "cd"; six_chars; nl :: of_string "k"].
Proof. reflexivity. Qed.

Example two_segments_chunks :
  chunk_text two_segments default_max_chars = [full_line; of_string "b"].
Proof. evaluate. Qed.

(** *** C1 *)

Lemma chunk_text_budget_counterexample :
  (0 < 2)%Z
  /\ exists seg : str,
       In seg (chunk_text line_pair 2)
       /\ ~ ((len seg <= 2)%Z
             \/ (In seg (split nl line_pair) /\ (2 < len seg)%Z)).
Proof.
  split; [reflexivity|]. exists line_pair. split; [left; reflexivity|].
  intros [Hle|[Hin _]].
  - revert Hle. cbv. intros Hle. now apply Hle.
  - cbv in Hin. destruct Hin as [Hin|[Hin|[]]]; discriminate Hin.
Qed.

Lemma chunk_text_budget_witness :
  In line_pair (chunk_text line_pair 2)
  /\ ((content_length line_pair <= 2)%Z
      \/ (In line_pair (split nl line_pair) /\ (2 < len line_pair)%Z)).
Proof.
  assert (H : In line_pair (chunk_text line_pair 2)) by (left; reflexivity).
  split; [exact H|exact (@chunk_text_budget line_pair 2 line_pair H)].
Defined.

(** *** C3 *)

Lemma chunk_text_empty_counterexample :
  chunk_text [] default_max_chars = [[]]
  /\ chunk_text [] default_max_chars <> [].
Proof. split; [reflexivity|discriminate]. Qed.

(** *** C4 *)

Lemma summarize_empty_counterexample :
  Cli.summarize world_ok [] model_m []
  = (Return (of_string "S"),
     [EvPrint (Cli.progress_line 1 1);
      EvRun (ollama_argv [] model_m) (Return proc_ok)])
  /\ Gui.summarize world_ok [] model_m (Some cb_ok) []
     = (Return (of_string "S"),
        [EvCallback (Gui.progress_msg 1 1) (Return tt);
         EvRun (ollama_argv [] model_m) (Return proc_ok)])
  /\ of_string "S" <> [].
Proof. split; [reflexivity|split; [reflexivity|discriminate]]. Qed.

(** *** C5 *)

Lemma output_selection_counterexample :
  strip (stdout proc_blank) = []
  /\ strip (stderr proc_blank) = of_string "no model"
  /\ fst (summarize_with_ollama world_blank six_chars model_m []) = Return []
  /\ @Return str [] <> Return (strip (stderr proc_blank)).
Proof.
  split; [reflexivity|]. split; [reflexivity|].
  split; [reflexivity|discriminate].
Qed.

Lemma summarize_with_ollama_output_witness :
  world_ok [] (ollama_argv six_chars model_m) = Return proc_ok
  /\ exists out : str,
       fst (summarize_with_ollama world_ok six_chars model_m []) = Return out
       /\ (stdout proc_ok <> [] -> out = strip (stdout proc_ok))
       /\ (stdout proc_ok = [] -> out = strip (stderr proc_ok))
       /\ (strip (stdout proc_ok) <> [] -> out = strip (stdout proc_ok)).
Proof.
  split; [reflexivity|].
  exact (@summarize_with_ollama_output world_ok six_chars model_m [] proc_ok
           eq_refl).
Defined.

(** *** C6 *)

Lemma summarize_callback_counterexample :
  Gui.summarize world_ok six_chars model_m (Some cb_ok) []
  = (Return (of_string "S"),
     [EvCallback (Gui.progress_msg 1 1) (Return tt);
      EvRun (ollama_argv six_chars model_m) (Return proc_ok)])
  /\ Gui.summarize world_ok six_chars model_m (Some cb_fail) []
     = (Raise boom, [EvCallback (Gui.progress_msg 1 1) (Raise boom)]).
Proof. split; reflexivity. Qed.

Lemma summarize_callback_raises_witness :
  Gui.summarize world_ok two_segments model_m (Some cb_once) []
  = (Raise boom,
     [] ++ [EvCallback (Gui.progress_msg 1 2) (Return tt);
            EvRun (ollama_argv full_line model_m) (Return proc_ok);
            EvCallback (Gui.progress_msg 2 2) (Raise boom)])
  /\ In (EvCallback (Gui.progress_msg 2 2) (Raise boom))
       [EvCallback (Gui.progress_msg 1 2) (Return tt);
        EvRun (ollama_argv full_line model_m) (Return proc_ok);
        EvCallback (Gui.progress_msg 2 2) (Raise boom)]
  /\ (@Raise str boom = Raise boom
      /\ exists t0,
           [EvCallback (Gui.progress_msg 1 2) (Return tt);
            EvRun (ollama_argv full_line model_m) (Return proc_ok);
            EvCallback (Gui.progress_msg 2 2) (Raise boom)]
           = t0 ++ [EvCallback (Gui.progress_msg 2 2) (Raise boom)]).
Proof.
  assert (Hrun :
    Gui.summarize world_ok two_segments model_m (Some cb_once) []
    = (Raise boom,
       [] ++ [EvCallback (Gui.progress_msg 1 2) (Return tt);
              EvRun (ollama_argv full_line model_m) (Return proc_ok);
              EvCallback (Gui.progress_msg 2 2) (Raise boom)])) by evaluate.
  assert (Hin :
    In (EvCallback (Gui.progress_msg 2 2) (Raise boom))
       [EvCallback (Gui.progress_msg 1 2) (Return tt);
        EvRun (ollama_argv full_line model_m) (Return proc_ok);
        EvCallback (Gui.progress_msg 2 2) (Raise boom)])
    by (right; right; left; reflexivity).
  split; [exact Hrun|]. split; [exact Hin|].
  exact (@summarize_callback_raises world_ok cb_once two_segments model_m []
           _ _ _ _ Hrun Hin).
Defined.

(** *** C7 *)

Lemma summarize_progress_counterexample :
  length (chunk_text two_segments default_max_chars) = 2
  /\ Gui.summarize world_ok two_segments model_m (Some cb_fail) []
     = (Raise boom, [EvCallback (Gui.progress_msg 1 2) (Raise boom)])
  /\ Gui.summarize world_never two_segments model_m (Some cb_ok) []
     = (Raise no_ollama,
        [EvCallback (Gui.progress_msg 1 2) (Return tt);
         EvRun (ollama_argv full_line model_m) (Raise no_ollama)])
  /\ length (callback_messages
               [EvCallback (Gui.progress_msg 1 2) (Raise boom)]) = 1
  /\ length (callback_messages
               [EvCallback (Gui.progress_msg 1 2) (Return tt);
                EvRun (ollama_argv full_line model_m) (Raise no_ollama)]) = 1
  /\ 1 <> 2.
Proof.
  split; [evaluate|]. split; [evaluate|]. split; [evaluate|].
  split; [reflexivity|]. split; [reflexivity|discriminate].
Qed.

Lemma summarize_progress_witness :
  Gui.summarize world_len two_segments model_m (Some cb_ok) []
  = (Return (of_string "20126" ++ [nl; nl] ++ of_string "127"),
     [] ++ [EvCallback (of_string "Summarizing part 1/2...") (Return tt);
            EvRun (ollama_argv full_line model_m)
              (Return (backend_len (ollama_argv full_line model_m)));
            EvCallback (of_string "Summarizing part 2/2...") (Return tt);
            EvRun (ollama_argv (of_string "b") model_m)
              (Return (backend_len (ollama_argv (of_string "b") model_m)))])
  /\ (let chunks := chunk_text two_segments default_max_chars in
      let N := length chunks in
      let message := fun idx : nat =>
        of_string "Summarizing part " ++ decimal idx ++ of_string "/"
        ++ decimal N ++ of_string "..." in
      let events := fun x : nat * str * CompletedProcess =>
        let '(idx, chunk, proc) := x in
        [EvCallback (message idx) (Return tt);
         EvRun (ollama_argv chunk model_m) (Return proc)] in
      exists k : nat,
        k <= N
        /\ callback_messages
             [EvCallback (of_string "Summarizing part 1/2...") (Return tt);
              EvRun (ollama_argv full_line model_m)
                (Return (backend_len (ollama_argv full_line model_m)));
              EvCallback (of_string "Summarizing part 2/2...") (Return tt);
              EvRun (ollama_argv (of_string "b") model_m)
                (Return (backend_len (ollama_argv (of_string "b") model_m)))]
           = map message (seq 1 k)
        /\ (forall s : str,
              Return (of_string "20126" ++ [nl; nl] ++ of_string "127")
              = Return s ->
              k = N
              /\ exists procs : list CompletedProcess,
                   length procs = N
                   /\ [EvCallback (of_string "Summarizing part 1/2...")
                         (Return tt);
                       EvRun (ollama_argv full_line model_m)
                         (Return (backend_len (ollama_argv full_line model_m)));
                       EvCallback (of_string "Summarizing part 2/2...")
                         (Return tt);
                       EvRun (ollama_argv (of_string "b") model_m)
                         (Return (backend_len
                                    (ollama_argv (of_string "b") model_m)))]
                      = flat_map events (combine (enumerate chunks 1) procs)
                   /\ s = join [nl; nl] (map output_of procs))).
Proof.
  assert (Hrun :
    Gui.summarize world_len two_segments model_m (Some cb_ok) []
    = (Return (of_string "20126" ++ [nl; nl] ++ of_string "127"),
       [] ++ [EvCallback (of_string "Summarizing part 1/2...") (Return tt);
              EvRun (ollama_argv full_line model_m)
                (Return (backend_len (ollama_argv full_line model_m)));
              EvCallback (of_string "Summarizing part 2/2...") (Return tt);
              EvRun (ollama_argv (of_string "b") model_m)
                (Return (backend_len (ollama_argv (of_string "b") model_m)))]))
    by evaluate.
  split; [exact Hrun|].
  exact (@summarize_progress world_len cb_ok two_segments model_m [] _ _ Hrun).
Defined.

(** *** C8 *)

Lemma summarize_joins_in_order_witness :
  (forall (h' : trace) (argv : list str),
      world_len h' argv = Return (backend_len argv))
  /\ (let chunks := chunk_text two_segments default_max_chars in
      let invoke :=
        fun chunk => output_of (backend_len (ollama_argv chunk model_m)) in
      Cli.summarize world_len two_segments model_m []
      = (Return (join [nl; nl] (map invoke chunks)),
         [] ++ flat_map (cli_events backend_len model_m (length chunks))
                 (enumerate chunks 1)))
  /\ join [nl; nl]
       (map (fun chunk => output_of (backend_len (ollama_argv chunk model_m)))
          (chunk_text two_segments default_max_chars))
     = of_string "20126" ++ [nl; nl] ++ of_string "127".
Proof.
  assert (Hw : forall (h' : trace) (argv : list str),
             world_len h' argv = Return (backend_len argv))
    by (intros; reflexivity).
  split; [exact Hw|]. split.
  - exact (@summarize_joins_in_order world_len backend_len two_segments
             model_m [] Hw).
  - evaluate.
Defined.

(** *** C9 *)

Lemma chunk_text_overlong_line_witness :
  (~ In nl six_chars /\ (5 < len six_chars)%Z
   /\ chunk_text six_chars 5 = [six_chars])
  /\ (In six_chars (split nl three_lines) /\ (5 < len six_chars)%Z
      /\ In six_chars (chunk_text three_lines 5)).
Proof.
  assert (Hn : ~ In nl six_chars) by no_newline.
  assert (Hlt : (5 < len six_chars)%Z) by reflexivity.
  assert (Hin : In six_chars (split nl three_lines))
    by (right; left; reflexivity).
  split.
  - split; [exact Hn|]. split; [exact Hlt|].
    exact (proj1 (chunk_text_overlong_line six_chars 5) Hn Hlt).
  - split; [exact Hin|]. split; [exact Hlt|].
    exact (proj2 (chunk_text_overlong_line three_lines 5) six_chars Hin Hlt).
Defined.

(** *** C10 *)

Lemma exit_status_ignored_witness :
  world_ok [] (ollama_argv six_chars model_m) = Return proc_ok
  /\ world_ok_exit1 [] (ollama_argv six_chars model_m) = Return proc_ok_exit1
  /\ stdout proc_ok = stdout proc_ok_exit1
  /\ stderr proc_ok = stderr proc_ok_exit1
  /\ returncode proc_ok <> returncode proc_ok_exit1
  /\ fst (summarize_with_ollama world_ok six_chars model_m [])
     = fst (summarize_with_ollama world_ok_exit1 six_chars model_m []).
Proof.
  assert (Hrc : returncode proc_ok <> returncode proc_ok_exit1)
    by discriminate.
  repeat (split; [first [reflexivity|exact Hrc]|]).
  exact (@exit_status_ignored world_ok world_ok_exit1 six_chars model_m [] []
           proc_ok proc_ok_exit1 eq_refl eq_refl eq_refl eq_refl Hrc).
Defined.

(* ================================================================== *)
(** * Further properties *)

(** ** Lines of a join *)

Lemma split_app (sep : char) (x y : str) :
  split sep (x ++ sep :: y) = split sep x ++ split sep y.
Proof.
  induction x as [|c x IH]; simpl.
  - now rewrite N.eqb_refl.
  - destruct (N.eqb c sep); [now rewrite IH|].
    rewrite IH. pose proof (split_not_nil sep x) as Hne.
    destruct (split sep x) as [|p ps]; [contradiction|reflexivity].
Qed.

(** The lines of a join are the lines of its parts, part after part. *)
Lemma split_join (sep : char) (xs : list str) :
  xs <> [] ->
  split sep (join [sep] xs) = concat (map (split sep) xs).
Proof.
  induction xs as [|x xs IH]; intros Hne; [contradiction|].
  destruct xs as [|y xs].
  - simpl. now rewrite app_nil_r.
  - rewrite join_cons. change ([sep] ++ join [sep] (y :: xs))
      with (sep :: join [sep] (y :: xs)).
    rewrite split_app, IH by discriminate. reflexivity.
Qed.

Lemma concat_map_single (xs : list str) :
  Forall (fun p => ~ In nl p) xs ->
  concat (map (split nl) xs) = xs.
Proof.
  induction 1 as [|x xs Hx _ IH]; [reflexivity|].
  simpl. rewrite split_single, IH by assumption. reflexivity.
Qed.

(** ** More on [chunk_text] *)

Lemma greedy_snoc (max_chars : Z) (gs : list (list str)) (g : list str)
    (p : str) (q : list str) :
  greedy max_chars (gs ++ [g]) ->
  (max_chars < sum_len g + len p)%Z ->
  greedy max_chars ((gs ++ [g]) ++ [p :: q]).
Proof.
  intros Hg Hlt. induction gs as [|a gs IH].
  - simpl. auto.
  - destruct gs as [|b gs].
    + simpl in *. destruct Hg as [Hag _]. auto.
    + change (greedy max_chars (a :: (b :: gs ++ [g]) ++ [p :: q])).
      change (greedy max_chars (a :: b :: gs ++ [g])) in Hg.
      destruct Hg as [Hab Hrest]. split; [exact Hab|].
      apply IH. exact Hrest.
Qed.

Lemma greedy_last_extend (max_chars : Z) (gs : list (list str))
    (c : list str) (p : str) :
  greedy max_chars (gs ++ [c]) -> c <> [] ->
  greedy max_chars (gs ++ [c ++ [p]]).
Proof.
  intros Hg Hc. induction gs as [|a gs IH].
  - simpl. exact I.
  - destruct gs as [|b gs].
    + simpl in *. destruct Hg as [Hac _]. split; [|exact I].
      destruct c as [|x c]; [contradiction|exact Hac].
    + change (greedy max_chars (a :: b :: gs ++ [c ++ [p]])).
      change (greedy max_chars (a :: b :: gs ++ [c])) in Hg.
      destruct Hg as [Hab Hrest]. split; [exact Hab|].
      apply IH. exact Hrest.
Qed.

Lemma packed_greedy_init (max_chars : Z) :
  packed_greedy max_chars [] (Packer [] [] 0) [].
Proof. constructor; simpl; auto. Qed.

Lemma packed_greedy_step (max_chars : Z) (done : list str) (st : packer)
    (gs : list (list str)) (p : str) :
  packed_greedy max_chars done st gs ->
  exists gs',
    packed_greedy max_chars (done ++ [p]) (chunk_step max_chars st p) gs'.
Proof.
  intros [Hc Hd Hk Hf Hn Hg]. unfold chunk_step, running in *.
  destruct ((count st + len p >? max_chars)%Z && truthy (current st)) eqn:E.
  - apply andb_true_iff in E as [Hgt Ht]. apply truthy_true in Ht.
    apply Z.gtb_lt in Hgt.
    destruct (current st) as [|x cur] eqn:Ecur; [contradiction|].
    exists (gs ++ [x :: cur]). constructor; simpl.
    + now rewrite Hc, map_app.
    + rewrite concat_app. simpl. now rewrite app_nil_r, <- Hd.
    + lia.
    + discriminate.
    + apply Forall_app. split; [assumption|]. now constructor.
    + apply greedy_snoc; [assumption|]. rewrite <- Hk. assumption.
  - exists gs. constructor; simpl; try assumption.
    + now rewrite <- Hd, app_assoc.
    + rewrite sum_len_app, Hk. simpl. lia.
    + intros H. destruct (current st); discriminate.
    + destruct (current st) as [|x cur] eqn:Ecur.
      * rewrite (Hf eq_refl). simpl. exact I.
      * change ((x :: cur) ++ [p]) with (x :: (cur ++ [p])).
        cbv iota. change (x :: cur ++ [p]) with ((x :: cur) ++ [p]).
        apply greedy_last_extend; [assumption|discriminate].
Qed.

Lemma packed_greedy_fold (max_chars : Z) (paras done : list str)
    (st : packer) (gs : list (list str)) :
  packed_greedy max_chars done st gs ->
  exists gs',
    packed_greedy max_chars (done ++ paras)
      (fold_left (chunk_step max_chars) paras st) gs'.
Proof.
  revert done st gs. induction paras as [|p paras IH]; intros done st gs H.
  - exists gs. now rewrite app_nil_r.
  - destruct (packed_greedy_step p H) as [gs1 H1].
    destruct (IH _ _ _ H1) as [gs2 H2].
    exists gs2. simpl. now rewrite <- app_assoc in H2.
Qed.

(** The segments are the joins of consecutive non-empty runs of the
    lines, and a run ends only where the next line did not fit. *)
Lemma chunk_text_runs (text : str) (budget : Z) :
  exists runs : list (list str),
    concat runs = split nl text
    /\ Forall (fun run => run <> []) runs
    /\ chunk_text text budget = map (join [nl]) runs
    /\ greedy budget runs.
Proof.
  unfold chunk_text.
  destruct (packed_greedy_fold (split nl text) (packed_greedy_init budget))
    as [gs [Hc Hd Hk Hf Hn Hg]].
  pose proof (@fold_current budget (split nl text) (Packer [] [] 0)
                (@split_not_nil nl text)) as Hne.
  simpl in Hd. unfold running in Hg.
  set (st := fold_left (chunk_step budget) (split nl text) (Packer [] [] 0)) in *.
  destruct (current st) as [|q qs] eqn:Ecur; [contradiction|].
  simpl truthy. cbv iota.
  exists (gs ++ [q :: qs]). repeat split.
  - rewrite concat_app. simpl. now rewrite app_nil_r.
  - apply Forall_app. split; [assumption|].
    constructor; [discriminate|constructor].
  - now rewrite Hc, map_app.
  - assumption.
Qed.

Lemma content_length_text (text : str) :
  content_length text = sum_len (split nl text).
Proof.
  rewrite <- (join_split nl text) at 1.
  apply content_length_join, split_no_sep.
Qed.

Lemma sum_len_concat_two (g : list str) (p : str) (q : list str)
    (rest : list (list str)) :
  (sum_len g + len p <= sum_len (concat (g :: (p :: q) :: rest)))%Z.
Proof.
  simpl. rewrite sum_len_app. simpl. rewrite sum_len_app.
  pose proof (sum_len_nonneg q). pose proof (sum_len_nonneg (concat rest)).
  lia.
Qed.

(** A text whose characters other than newlines fit the budget comes
    back as one segment, the text itself. *)
Lemma chunk_text_single (text : str) (budget : Z) :
  (content_length text <= budget)%Z ->
  chunk_text text budget = [text].
Proof.
  intros Hle. rewrite content_length_text in Hle.
  destruct (chunk_text_runs text budget) as (runs & Hcat & Hn & Hc & Hg).
  rewrite Hc. destruct runs as [|g runs].
  - exfalso. simpl in Hcat. symmetry in Hcat.
    now apply split_not_nil in Hcat.
  - destruct runs as [|g' runs].
    + simpl in *. rewrite app_nil_r in Hcat. subst g.
      now rewrite join_split.
    + exfalso. inversion Hn as [|? ? _ Hn']; subst.
      inversion Hn' as [|? ? Hg' _]; subst.
      destruct g' as [|p q]; [contradiction|].
      destruct Hg as [Hlt _].
      pose proof (sum_len_concat_two g p q runs) as Hsum.
      rewrite Hcat in Hsum. lia.
Qed.

Lemma length_concat_nonempty {A : Type} (gs : list (list A)) :
  Forall (fun g => g <> []) gs -> length gs <= length (concat gs).
Proof.
  induction 1 as [|g gs Hg _ IH]; simpl; [lia|].
  rewrite length_app. destruct g; [contradiction|]. simpl. lia.
Qed.

(** X3: there are never more segments than lines. *)
Theorem chunk_text_length (text : str) (budget : Z) :
  length (chunk_text text budget) <= length (split nl text).
Proof.
  destruct (chunk_text_groups text budget) as (gs & Hc & Hcat & _ & Hn & _).
  rewrite Hc, length_map, <- Hcat. now apply length_concat_nonempty.
Qed.

(** X4: under a negative budget nothing fits with anything, and the
    segments are the lines of the text, one by one. *)
Theorem chunk_text_negative_budget (text : str) (budget : Z) :
  (budget < 0)%Z ->
  chunk_text text budget = split nl text.
Proof.
  intros Hneg.
  destruct (chunk_text_groups text budget) as (gs & Hc & Hcat & _ & _ & Hw).
  rewrite Hc, <- Hcat. clear Hc Hcat.
  induction Hw as [|g gs Hg _ IH]; [reflexivity|].
  simpl. rewrite IH. destruct Hg as [Hle|(p & -> & _)].
  - pose proof (sum_len_nonneg g). lia.
  - reflexivity.
Qed.

Lemma greedy_tail (max_chars : Z) (g : list str) (rest : list (list str)) :
  greedy max_chars (g :: rest) -> greedy max_chars rest.
Proof.
  destruct rest as [|g' rest]; [intros _; exact I|].
  intros [_ H]. exact H.
Qed.

Lemma half_succ_succ (n : nat) : S (S n) / 2 = S (n / 2).
Proof.
  replace (S (S n)) with (n + 1 * 2) by lia.
  rewrite Nat.div_add by discriminate. lia.
Qed.

Lemma greedy_pairs (max_chars : Z) (n : nat) :
  (0 <= max_chars)%Z ->
  forall runs : list (list str),
    length runs <= n ->
    Forall (fun run => run <> []) runs ->
    greedy max_chars runs ->
    (Z.of_nat (length runs / 2) * max_chars <= sum_len (concat runs))%Z.
Proof.
  intros Hpos. induction n as [|n IH]; intros runs Hlen Hne Hg.
  - destruct runs; [simpl; lia|simpl in Hlen; lia].
  - destruct runs as [|g [|g' rest]].
    + simpl. lia.
    + change (length [g] / 2) with 0. pose proof (sum_len_nonneg (concat [g])).
      lia.
    + inversion Hne as [|? ? _ Hne']; subst.
      inversion Hne' as [|? ? Hg' Hrest]; subst.
      destruct g' as [|p q]; [contradiction|].
      destruct Hg as [Hlt Hg2]. apply greedy_tail in Hg2.
      assert (Hlen' : length rest <= n) by (simpl in Hlen; lia).
      specialize (IH rest Hlen' Hrest Hg2).
      change (length (g :: (p :: q) :: rest)) with (S (S (length rest))).
      rewrite half_succ_succ, Nat2Z.inj_succ.
      change (concat (g :: (p :: q) :: rest))
        with (g ++ (p :: q) ++ concat rest).
      rewrite !sum_len_app.
      change (sum_len (p :: q)) with (len p + sum_len q)%Z.
      pose proof (sum_len_nonneg q). lia.
Qed.

(** X5: the number of segments is bounded by the size of the text:
    any two consecutive segments together hold more than the budget,
    so half the number of segments (rounded down) times the budget is
    at most the number of characters of the text other than newlines. *)
Theorem chunk_text_count_bound (text : str) (budget : Z) :
  (Z.of_nat (length (chunk_text text budget) / 2) * budget
   <= content_length text)%Z.
Proof.
  assert (Hc : (0 <= content_length text)%Z)
    by (rewrite content_length_text; apply sum_len_nonneg).
  destruct (Z_lt_le_dec budget 0) as [Hneg|Hpos].
  - pose proof (Nat2Z.is_nonneg (length (chunk_text text budget) / 2)). nia.
  - destruct (chunk_text_runs text budget) as (runs & Hcat & Hn & Hruns & Hg).
    rewrite Hruns, length_map, content_length_text, <- Hcat.
    now apply (@greedy_pairs budget (length runs)).
Qed.

Lemma greedy_app_tail (max_chars : Z) (pre rest : list (list str)) :
  greedy max_chars (pre ++ rest) -> greedy max_chars rest.
Proof.
  induction pre as [|g pre IH]; intros H; [exact H|].
  apply IH. exact (@greedy_tail _ _ _ H).
Qed.

Lemma split_join_lines (g : list str) :
  g <> [] -> Forall (fun p => ~ In nl p) g -> split nl (join [nl] g) = g.
Proof.
  intros Hne Hnl. rewrite split_join by assumption.
  now apply concat_map_single.
Qed.

(** X1: the packing is greedy.  A segment is closed only where the
    next line did not fit: for any two consecutive segments, the
    characters of the first (newlines left out) plus the length of the
    first line of the second exceed the budget. *)
Theorem chunk_text_greedy (text : str) (budget : Z)
    (before : list str) (seg next : str) (after : list str) :
  chunk_text text budget = before ++ seg :: next :: after ->
  (budget < content_length seg + len (hd [] (split nl next)))%Z.
Proof.
  intros Hsegs.
  destruct (chunk_text_runs text budget) as (runs & Hcat & Hne & Hc & Hg).
  rewrite Hc in Hsegs.
  apply map_eq_app in Hsegs as (rbefore & rrest & -> & _ & Hrest).
  apply map_eq_cons in Hrest as (g & rrest' & -> & <- & Hrest).
  apply map_eq_cons in Hrest as (g' & rafter & -> & <- & _).
  pose proof (split_no_sep nl text) as Hnl. rewrite <- Hcat in Hnl.
  apply Forall_concat_inv in Hnl.
  apply Forall_app in Hnl as [_ Hnl]. apply Forall_app in Hne as [_ Hne].
  inversion Hnl as [|? ? Hnl_g Hnl']; subst.
  inversion Hnl' as [|? ? Hnl_g' _]; subst.
  inversion Hne as [|? ? _ Hne']; subst.
  inversion Hne' as [|? ? Hne_g' _]; subst.
  apply greedy_app_tail in Hg.
  rewrite content_length_join, split_join_lines by assumption.
  destruct g' as [|p q]; [contradiction|].
  destruct Hg as [Hlt _]. exact Hlt.
Qed.

(** X2: [chunk_text] gives the text back as its one segment exactly
    when the characters of the text other than newlines fit the budget
    or the text is a single line. *)
Theorem chunk_text_one_segment (text : str) (budget : Z) :
  chunk_text text budget = [text]
  <-> (content_length text <= budget)%Z \/ ~ In nl text.
Proof.
  split.
  - intros Hone.
    destruct (chunk_text_groups text budget) as (gs & Hc & Hcat & _ & _ & Hw).
    rewrite Hc in Hone. destruct gs as [|g [|g' gs]]; try discriminate.
    simpl in Hcat. rewrite app_nil_r in Hcat. subst g.
    inversion Hw as [|? ? Hg _]; subst.
    destruct Hg as [Hle|(p & Hp & _)].
    + left. now rewrite content_length_text.
    + right. pose proof (split_no_sep nl text) as Hnl.
      rewrite Hp in Hnl. inversion Hnl as [|? ? Hnp _]; subst.
      rewrite <- (join_split nl text), Hp. exact Hnp.
  - intros [Hle|Hnl].
    + now apply chunk_text_single.
    + unfold chunk_text. rewrite split_single by assumption.
      unfold chunk_step. simpl. now rewrite andb_false_r.
Qed.

(** ** More on [summarize_with_ollama] *)

Lemma drop_while_head {A : Type} (f : A -> bool) (l : list A) (c : A)
    (rest : list A) :
  drop_while f l = c :: rest -> f c = false.
Proof.
  induction l as [|x l IH]; simpl; [discriminate|].
  destruct (f x) eqn:E; [exact IH|].
  intros H. injection H as -> _. exact E.
Qed.

Lemma drop_while_snoc {A : Type} (f : A -> bool) (l : list A) (c : A) :
  f c = false -> drop_while f (l ++ [c]) = drop_while f l ++ [c].
Proof.
  intros Hc. induction l as [|x l IH]; simpl.
  - now rewrite Hc.
  - destruct (f x); [exact IH|reflexivity].
Qed.

Lemma drop_while_fixed {A : Type} (f : A -> bool) (l : list A) :
  (forall c rest, l = c :: rest -> f c = false) -> drop_while f l = l.
Proof.
  intros H. destruct l as [|x l]; [reflexivity|].
  simpl. now rewrite (H x l eq_refl).
Qed.

Lemma strip_first (s : str) (c : char) (rest : str) :
  strip s = c :: rest -> is_space c = false.
Proof.
  unfold strip, rstrip, lstrip.
  destruct (drop_while is_space s) as [|x t] eqn:E; [discriminate|].
  pose proof (drop_while_head _ _ E) as Hx.
  simpl rev. rewrite drop_while_snoc by assumption.
  rewrite rev_app_distr. simpl. intros H. injection H as <- _. exact Hx.
Qed.

Lemma strip_last (s : str) (rest : str) (c : char) :
  strip s = rest ++ [c] -> is_space c = false.
Proof.
  unfold strip, rstrip. intros H.
  apply (f_equal (@rev char)) in H.
  rewrite rev_involutive, rev_app_distr in H. simpl in H.
  exact (drop_while_head _ _ H).
Qed.

Lemma strip_fixed (s : str) :
  (forall c rest, s = c :: rest -> is_space c = false) ->
  (forall rest c, s = rest ++ [c] -> is_space c = false) ->
  strip s = s.
Proof.
  intros Hfirst Hlast. unfold strip, rstrip, lstrip.
  rewrite (@drop_while_fixed _ is_space s Hfirst).
  rewrite drop_while_fixed; [apply rev_involutive|].
  intros c rest H. apply (Hlast (rev rest)).
  rewrite <- (rev_involutive s), H. reflexivity.
Qed.

(** X6: a partial summary never starts or ends with whitespace, and
    trimming it again changes nothing. *)
Theorem summarize_with_ollama_trimmed (world : process_world)
    (text model : str) (h : trace) (out : str) :
  fst (summarize_with_ollama world text model h) = Return out ->
  strip out = out
  /\ (forall c rest, out = c :: rest -> is_space c = false)
  /\ (forall rest c, out = rest ++ [c] -> is_space c = false).
Proof.
  rewrite summarize_with_ollama_eq. cbv zeta. simpl.
  destruct (world h (ollama_argv text model)) as [proc|e]; [|discriminate].
  intros H. injection H as <-.
  assert (Hs : exists s, output_of proc = strip s).
  { unfold output_of. destruct (truthy (stdout proc)); eauto. }
  destruct Hs as [s ->].
  assert (Hfirst : forall c rest, strip s = c :: rest -> is_space c = false)
    by (intros c rest; apply strip_first).
  assert (Hlast : forall rest c, strip s = rest ++ [c] -> is_space c = false)
    by (intros rest c; apply strip_last).
  split; [|split]; try assumption. now apply strip_fixed.
Qed.

Lemma prompt_of_inj (t1 t2 : str) : prompt_of t1 = prompt_of t2 -> t1 = t2.
Proof.
  unfold prompt_of. intros H.
  apply app_inv_head, app_inv_head in H.
  rewrite !app_assoc in H.
  apply app_inv_tail, app_inv_tail, app_inv_tail in H. exact H.
Qed.

(** X7: the command line of a backend call determines the segment and
    the model it was built from: the prompt holds the segment verbatim
    between its two fixed lines. *)
Theorem ollama_argv_inj (t1 m1 t2 m2 : str) :
  ollama_argv t1 m1 = ollama_argv t2 m2 -> t1 = t2 /\ m1 = m2.
Proof.
  intros H. split.
  - apply prompt_of_inj. exact (f_equal (fun argv => nth 3 argv []) H).
  - exact (f_equal (fun argv => nth 2 argv []) H).
Qed.

(** ** More on [summarize] *)

Lemma cli_body_eq (world : process_world) (model : str) (total : nat) :
  cli_body world model total = loop_body (cli_notify total) world model.
Proof. reflexivity. Qed.

Lemma gui_body_eq (world : process_world) (model : str)
    (update_callback : option callback) (total : nat) :
  gui_body world model update_callback total
  = loop_body (gui_notify update_callback total) world model.
Proof. reflexivity. Qed.

Lemma cli_notify_reports (total : nat) : reports (cli_notify total).
Proof.
  intros idx h. exists [EvPrint (Cli.progress_line idx total)].
  split; [reflexivity|]. repeat constructor.
Qed.

Lemma gui_notify_reports (update_callback : option callback) (total : nat) :
  reports (gui_notify update_callback total).
Proof.
  intros idx h. destruct update_callback as [cb|]; simpl.
  - eexists. split; [reflexivity|]. repeat constructor.
  - exists []. split; [now rewrite app_nil_r|constructor].
Qed.

Lemma loop_step (notify : nat -> Py unit) (world : process_world)
    (model : str) (c : str) (cs : list str) (idx : nat) (acc : list str)
    (h : trace) :
  for_each (enumerate (c :: cs) idx) (loop_body notify world model) acc h =
  match notify idx h with
  | (Raise e, h1) => (Raise e, h1)
  | (Return _, h1) =>
      let rp := world h1 (ollama_argv c model) in
      let h2 := h1 ++ [EvRun (ollama_argv c model) rp] in
      match rp with
      | Raise e => (Raise e, h2)
      | Return proc =>
          for_each (enumerate cs (S idx)) (loop_body notify world model)
            (acc ++ [output_of proc]) h2
      end
  end.
Proof.
  cbn [enumerate for_each loop_body]. unfold bind at 1 2.
  destruct (notify idx h) as [[u|e] h1]; [|reflexivity].
  unfold bind at 1. rewrite summarize_with_ollama_eq. cbv zeta.
  destruct (world _ _); reflexivity.
Qed.

Lemma loop_extends (notify : nat -> Py unit) (world : process_world)
    (model : str) (cs : list str) :
  reports notify ->
  forall (idx : nat) (acc : list str) (h : trace),
    exists t : trace,
      snd (for_each (enumerate cs idx) (loop_body notify world model) acc h)
      = h ++ t.
Proof.
  intros Hn. induction cs as [|c cs IH]; intros idx acc h.
  - exists []. simpl. now rewrite app_nil_r.
  - rewrite loop_step. destruct (Hn idx h) as (tn & Htn & _).
    destruct (notify idx h) as [[u|e] h1]; simpl in Htn; subst h1;
      [|eexists; reflexivity].
    cbv zeta. destruct (world _ _) as [proc|e].
    + destruct (IH (S idx) (acc ++ [output_of proc])
                  ((h ++ tn) ++ [EvRun (ollama_argv c model) (Return proc)]))
        as [t Ht].
      rewrite Ht, <- !app_assoc. eexists; reflexivity.
    + rewrite <- !app_assoc. eexists; reflexivity.
Qed.

Lemma not_run_in (t : trace) (argv : list str)
    (r : outcome CompletedProcess) :
  Forall (fun ev => is_run ev = false) t -> ~ In (EvRun argv r) t.
Proof.
  intros Hall Hin. rewrite Forall_forall in Hall.
  specialize (Hall _ Hin). discriminate.
Qed.

Lemma loop_start_failure (notify : nat -> Py unit) (world : process_world)
    (model : str) (cs : list str) :
  reports notify ->
  forall (idx : nat) (acc : list str) (h : trace) (r : outcome (list str))
         (t : trace) (argv : list str) (e : exn),
    for_each (enumerate cs idx) (loop_body notify world model) acc h
    = (r, h ++ t) ->
    In (EvRun argv (Raise e)) t ->
    r = Raise e /\ exists t0, t = t0 ++ [EvRun argv (Raise e)].
Proof.
  intros Hn. induction cs as [|c cs IH]; intros idx acc h r t argv e Hrun Hin.
  - simpl in Hrun. unfold ret in Hrun. inversion Hrun as [[Hr Ht]].
    rewrite <- (app_nil_r h) in Ht at 1. apply app_inv_head in Ht.
    subst t. destruct Hin.
  - rewrite loop_step in Hrun. destruct (Hn idx h) as (tn & Htn & Hquiet).
    destruct (notify idx h) as [[u|e1] h1]; simpl in Htn; subst h1.
    + cbv zeta in Hrun. destruct (world _ _) as [proc|e2] eqn:Ew.
      * destruct (loop_extends world model cs Hn (S idx)
                    (acc ++ [output_of proc])
                    ((h ++ tn) ++ [EvRun (ollama_argv c model) (Return proc)]))
          as [t1 Ht1].
        rewrite Hrun in Ht1. simpl in Ht1.
        rewrite <- !app_assoc in Ht1. apply app_inv_head in Ht1. subst t.
        apply in_app_or in Hin as [Hin|Hin];
          [exfalso; exact (@not_run_in _ _ _ Hquiet Hin)|].
        simpl in Hin. destruct Hin as [Hin|Hin]; [discriminate|].
        rewrite !app_assoc in Hrun.
        destruct (IH _ _ _ _ _ _ _ Hrun Hin) as [Hr [t0 Ht0]].
        split; [assumption|]. subst t1.
        exists (tn ++ [EvRun (ollama_argv c model) (Return proc)] ++ t0).
        now rewrite <- !app_assoc.
      * inversion Hrun as [[Hr Ht]].
        rewrite <- !app_assoc in Ht. apply app_inv_head in Ht. subst t.
        apply in_app_or in Hin as [Hin|Hin];
          [exfalso; exact (@not_run_in _ _ _ Hquiet Hin)|].
        destruct Hin as [Hin|[]]. inversion Hin; subst.
        split; [reflexivity|]. now exists tn.
    + inversion Hrun as [[Hr Ht]]. apply app_inv_head in Ht. subst t.
      exfalso. exact (@not_run_in _ _ _ Hquiet Hin).
Qed.

(** X8: when a backend process of the command-line [summarize] cannot
    be started, the run ends there with that exception: the failed
    start is the last thing the run does, no later segment is tried,
    and no summary is returned. *)
Theorem cli_summarize_start_failure (world : process_world)
    (text model : str) (h : trace) (r : outcome str) (t : trace)
    (argv : list str) (e : exn) :
  Cli.summarize world text model h = (r, h ++ t) ->
  In (EvRun argv (Raise e)) t ->
  r = Raise e /\ exists t0, t = t0 ++ [EvRun argv (Raise e)].
Proof.
  intros Hrun Hin. rewrite cli_summarize_eq in Hrun. cbv zeta in Hrun.
  rewrite cli_body_eq in Hrun. unfold bind at 1 in Hrun.
  destruct (for_each _ _ _ h) as [[summaries|e1] h1] eqn:Eloop.
  - unfold ret in Hrun. inversion Hrun; subst h1.
    destruct (@loop_start_failure _ _ _ _ (cli_notify_reports _)
                _ _ _ _ _ _ _ Eloop Hin) as [Hr _].
    discriminate.
  - inversion Hrun; subst h1 r.
    destruct (@loop_start_failure _ _ _ _ (cli_notify_reports _)
                _ _ _ _ _ _ _ Eloop Hin) as [Hr Ht].
    split; [congruence|assumption].
Qed.

(** X9: when a backend process of the [summarize] of the desktop front
    end cannot be started, with or without a callback, the run ends
    there with that exception: the failed start is the last event of
    the run and no summary is returned. *)
Theorem gui_summarize_start_failure (world : process_world)
    (update_callback : option callback) (text model : str) (h : trace)
    (r : outcome str) (t : trace) (argv : list str) (e : exn) :
  Gui.summarize world text model update_callback h = (r, h ++ t) ->
  In (EvRun argv (Raise e)) t ->
  r = Raise e /\ exists t0, t = t0 ++ [EvRun argv (Raise e)].
Proof.
  intros Hrun Hin. rewrite gui_summarize_eq in Hrun. cbv zeta in Hrun.
  rewrite gui_body_eq in Hrun. unfold bind at 1 in Hrun.
  destruct (for_each _ _ _ h) as [[summaries|e1] h1] eqn:Eloop.
  - unfold ret in Hrun. inversion Hrun; subst h1.
    destruct (@loop_start_failure _ _ _ _ (gui_notify_reports _ _)
                _ _ _ _ _ _ _ Eloop Hin) as [Hr _].
    discriminate.
  - inversion Hrun; subst h1 r.
    destruct (@loop_start_failure _ _ _ _ (gui_notify_reports _ _)
                _ _ _ _ _ _ _ Eloop Hin) as [Hr Ht].
    split; [congruence|assumption].
Qed.

Lemma loop_function (notify : nat -> Py unit) (world : process_world)
    (backend : list str -> CompletedProcess) (model : str) :
  (forall idx h, exists h1, notify idx h = (Return tt, h1)) ->
  (forall h argv, world h argv = Return (backend argv)) ->
  forall (cs : list str) (idx : nat) (acc : list str) (h : trace),
    fst (for_each (enumerate cs idx) (loop_body notify world model) acc h)
    = Return (acc ++ map (fun c => output_of (backend (ollama_argv c model)))
                       cs).
Proof.
  intros Hn Hw. induction cs as [|c cs IH]; intros idx acc h.
  - simpl. now rewrite app_nil_r.
  - rewrite loop_step. destruct (Hn idx h) as [h1 ->].
    cbv zeta. rewrite Hw, IH. simpl. now rewrite <- app_assoc.
Qed.

Lemma fst_bind_ret {A B : Type} (c : Py A) (f : A -> B) (h : trace) (a : A) :
  fst (c h) = Return a ->
  fst ((x <- c ;; ret (f x)) h) = Return (f a).
Proof.
  unfold bind, ret. destruct (c h) as [[a'|e] h1]; simpl; congruence.
Qed.

(** X10: progress reporting does not change the summary.  When the
    backend behaves as a function of the call and the callback, if one
    is given, does not raise, the [summarize] of the desktop front end
    returns the join of the partial summaries in segment order, the
    same value as the command-line [summarize]. *)
Theorem gui_summarize_value (world : process_world)
    (backend : list str -> CompletedProcess)
    (update_callback : option callback) (text model : str) (h h' : trace) :
  (forall h0 argv, world h0 argv = Return (backend argv)) ->
  (forall cb h0 msg, update_callback = Some cb -> cb h0 msg = Return tt) ->
  fst (Gui.summarize world text model update_callback h)
  = Return (join [nl; nl]
              (map (fun chunk => output_of (backend (ollama_argv chunk model)))
                 (chunk_text text default_max_chars)))
  /\ fst (Gui.summarize world text model update_callback h)
     = fst (Cli.summarize world text model h').
Proof.
  intros Hw Hcb.
  assert (Hgui : fst (Gui.summarize world text model update_callback h)
    = Return (join [nl; nl]
                (map (fun chunk => output_of (backend (ollama_argv chunk model)))
                   (chunk_text text default_max_chars)))).
  { rewrite gui_summarize_eq. cbv zeta. rewrite gui_body_eq.
    apply fst_bind_ret. rewrite (@loop_function _ world backend model).
    - reflexivity.
    - intros idx h0. unfold gui_notify.
      destruct update_callback as [cb|].
      + unfold call. rewrite (Hcb cb h0 _ eq_refl). eexists; reflexivity.
      + eexists; reflexivity.
    - exact Hw. }
  split; [exact Hgui|]. rewrite Hgui. symmetry.
  rewrite cli_summarize_eq. cbv zeta. rewrite cli_body_eq.
  apply fst_bind_ret. rewrite (@loop_function _ world backend model).
  - reflexivity.
  - intros idx h0. eexists; reflexivity.
  - exact Hw.
Qed.

(** X11: a text whose characters other than newlines fit the default
    budget of 20000 is summarized with one backend call on the whole
    text, after one progress line (chunk 1 of 1); the result is what
    that call gives. *)
Theorem cli_summarize_small_text (world : process_world) (text model : str)
    (h : trace) :
  (content_length text <= default_max_chars)%Z ->
  Cli.summarize world text model h =
    (let h1 := h ++ [EvPrint (Cli.progress_line 1 1)] in
     let r := world h1 (ollama_argv text model) in
     (match r with
      | Return proc => Return (output_of proc)
      | Raise e => Raise e
      end, h1 ++ [EvRun (ollama_argv text model) r])).
Proof.
  intros Hle. rewrite cli_summarize_eq.
  rewrite (chunk_text_single _ Hle).
  cbv zeta. unfold bind at 1. change (length [text]) with 1.
  rewrite cli_loop_cons. cbv zeta.
  destruct (world _ _); reflexivity.
Qed.

(** ** Runs that come to their end *)

Lemma loop_completes (notify : nat -> Py unit) (world : process_world)
    (model : str) :
  (forall idx h, exists h1, notify idx h = (Return tt, h1)) ->
  (forall h argv, exists proc, world h argv = Return proc) ->
  forall (cs : list str) (idx : nat) (acc : list str) (h : trace),
    exists (summaries : list str) (h' : trace),
      for_each (enumerate cs idx) (loop_body notify world model) acc h
      = (Return summaries, h').
Proof.
  intros Hn Hw. induction cs as [|c cs IH]; intros idx acc h.
  - now exists acc, h.
  - rewrite loop_step. destruct (Hn idx h) as [h1 ->]. cbv zeta.
    destruct (Hw h1 (ollama_argv c model)) as [proc ->]. apply IH.
Qed.

(** X12: when every backend process starts, the command-line
    [summarize] returns a summary; so does the [summarize] of the
    desktop front end, provided its callback, if it has one, does not
    raise. *)
Theorem summarize_returns (world : process_world) (text model : str)
    (h : trace) :
  (forall h0 argv, exists proc, world h0 argv = Return proc) ->
  (exists (s : str) (h' : trace),
      Cli.summarize world text model h = (Return s, h'))
  /\ (forall update_callback : option callback,
         (forall cb h0 msg,
             update_callback = Some cb -> cb h0 msg = Return tt) ->
         exists (s : str) (h' : trace),
           Gui.summarize world text model update_callback h = (Return s, h')).
Proof.
  intros Hw. split.
  - rewrite cli_summarize_eq. cbv zeta. rewrite cli_body_eq.
    destruct (@loop_completes (cli_notify
                 (length (chunk_text text default_max_chars))) world model
                (fun idx h0 => ex_intro _ _ eq_refl) Hw
                (chunk_text text default_max_chars) 1 [] h)
      as (summaries & h1 & E).
    unfold bind at 1. rewrite E. now eexists; eexists.
  - intros update_callback Hcb.
    rewrite gui_summarize_eq. cbv zeta. rewrite gui_body_eq.
    assert (Hn : forall idx h0, exists h1,
               gui_notify update_callback
                 (length (chunk_text text default_max_chars)) idx h0
               = (Return tt, h1)).
    { intros idx h0. unfold gui_notify.
      destruct update_callback as [cb|].
      - unfold call. rewrite (Hcb cb h0 _ eq_refl). eexists; reflexivity.
      - eexists; reflexivity. }
    destruct (@loop_completes _ world model Hn Hw
                (chunk_text text default_max_chars) 1 [] h)
      as (summaries & h1 & E).
    unfold bind at 1. rewrite E. now eexists; eexists.
Qed.

Lemma NoDup_map_injective {A B : Type} (f : A -> B) (l : list A) :
  (forall x y, f x = f y -> x = y) -> NoDup l -> NoDup (map f l).
Proof.
  intros Hinj. induction 1 as [|a l Ha _ IH]; simpl; constructor.
  - intros Hin. apply in_map_iff in Hin as (x & Hx & Hxl).
    apply Hinj in Hx. subst x. contradiction.
  - exact IH.
Qed.

(** X13: the progress messages of a run over [total] segments are
    pairwise distinct: each names its own index. *)
Theorem progress_messages_distinct (total : nat) :
  NoDup (map (fun idx => Gui.progress_msg idx total) (seq 1 total)).
Proof.
  apply NoDup_map_injective; [|apply seq_NoDup].
  intros i j. apply progress_msg_inj.
Qed.

(** ** Text extraction *)

Lemma fold_left_texts (pages : list (option str)) (acc : list str) :
  fold_left (fun texts page => texts ++ [or_empty page]) pages acc
  = acc ++ page_texts pages.
Proof.
  revert acc. induction pages as [|page pages IH]; intros acc; simpl.
  - now rewrite app_nil_r.
  - rewrite IH, <- app_assoc. reflexivity.
Qed.

Lemma extract_text_from_pdf_eq
    (pdfplumber_open : str -> outcome (list (option str)))
    (pdf_path : str) (pages : list (option str)) :
  pdfplumber_open pdf_path = Return pages ->
  extract_text_from_pdf pdfplumber_open pdf_path
  = Return (join [nl] (page_texts pages)).
Proof.
  intros H. unfold extract_text_from_pdf. rewrite H.
  now rewrite fold_left_texts.
Qed.

(** X14: the lines of the text extracted from a PDF are the lines of
    its pages, page after page; a page for which the reader has no
    text gives one empty line.  A document without pages gives the
    empty text. *)
Theorem extract_text_from_pdf_lines
    (pdfplumber_open : str -> outcome (list (option str)))
    (pdf_path : str) (pages : list (option str)) :
  pdfplumber_open pdf_path = Return pages ->
  exists text : str,
    extract_text_from_pdf pdfplumber_open pdf_path = Return text
    /\ (pages = [] -> text = [])
    /\ (pages <> [] ->
        split nl text
        = concat (map (fun page => split nl (or_empty page)) pages)).
Proof.
  intros H. exists (join [nl] (page_texts pages)).
  split; [now apply extract_text_from_pdf_eq|]. split.
  - intros ->. reflexivity.
  - intros Hne. rewrite split_join.
    + unfold page_texts. now rewrite map_map.
    + destruct pages; [contradiction|discriminate].
Qed.

Lemma join_repeat_nil (n : nat) :
  join [nl] (repeat [] n) = repeat nl (n - 1).
Proof.
  induction n as [|n IH]; [reflexivity|].
  destruct n as [|n]; [reflexivity|].
  change (repeat [] (S (S n))) with (@nil char :: [] :: repeat [] n).
  rewrite join_cons.
  change ([] :: repeat [] n) with (repeat (@nil char) (S n)).
  rewrite IH. simpl. now rewrite Nat.sub_0_r.
Qed.

Lemma page_texts_textless (pages : list (option str)) :
  Forall textless pages -> page_texts pages = repeat [] (length pages).
Proof.
  induction 1 as [|page pages Hp _ IH]; [reflexivity|].
  simpl. rewrite IH. destruct Hp as [->| ->]; reflexivity.
Qed.

Lemma content_length_newlines (n : nat) : content_length (repeat nl n) = 0%Z.
Proof.
  unfold content_length. induction n as [|n IH]; [reflexivity|].
  simpl. exact IH.
Qed.

(** X15: a PDF none of whose pages has text (a scan) gives a text of
    newlines only, one fewer than pages, and [chunk_text] keeps it as
    one segment: the pipeline still makes a backend call for it. *)
Theorem extract_text_from_pdf_textless
    (pdfplumber_open : str -> outcome (list (option str)))
    (pdf_path : str) (pages : list (option str)) :
  pdfplumber_open pdf_path = Return pages ->
  Forall textless pages ->
  extract_text_from_pdf pdfplumber_open pdf_path
  = Return (repeat nl (length pages - 1))
  /\ chunk_text (repeat nl (length pages - 1)) default_max_chars
     = [repeat nl (length pages - 1)].
Proof.
  intros H Hall. split.
  - rewrite (extract_text_from_pdf_eq _ _ H).
    now rewrite page_texts_textless, join_repeat_nil.
  - apply chunk_text_single. rewrite content_length_newlines. discriminate.
Qed.

Lemma filter_no_newline (paragraphs : list str) :
  Forall (fun p => ~ In nl p) paragraphs ->
  Forall (fun p => ~ In nl p) (filter nonblank paragraphs).
Proof.
  intros H. rewrite Forall_forall in *. intros p Hp.
  apply filter_In in Hp as [Hp _]. auto.
Qed.

(** X16: the lines of the text extracted from a Word document are its
    paragraphs that are more than whitespace, in order (paragraph texts
    holding no newline); blank paragraphs leave no trace, and a
    document with none but blank paragraphs gives the empty text. *)
Theorem extract_text_from_docx_lines
    (Document : str -> outcome (list str)) (docx_path : str)
    (paragraphs : list str) :
  Document docx_path = Return paragraphs ->
  Forall (fun p => ~ In nl p) paragraphs ->
  exists text : str,
    extract_text_from_docx Document docx_path = Return text
    /\ (filter nonblank paragraphs = [] -> text = [])
    /\ (filter nonblank paragraphs <> [] ->
        split nl text = filter nonblank paragraphs).
Proof.
  intros H Hnl. unfold extract_text_from_docx. rewrite H.
  exists (join [nl] (filter nonblank paragraphs)).
  split; [reflexivity|]. split.
  - intros ->. reflexivity.
  - intros Hne. rewrite split_join by assumption.
    apply concat_map_single. now apply filter_no_newline.
Qed.

(** ** The preview *)

(** X17: the preview is at most 503 characters long, starts with the
    same 500 characters as the text, and is the text itself when the
    text has at most 500 characters. *)
Theorem preview_bounds (raw_text : str) :
  (len (preview raw_text) <= 503)%Z
  /\ firstn 500 (preview raw_text) = firstn 500 raw_text
  /\ ((len raw_text <= 500)%Z -> preview raw_text = raw_text).
Proof.
  unfold preview, len.
  destruct (Z.gtb_spec (Z.of_nat (length raw_text)) 500) as [Hgt|Hle].
  - assert (Hlen : length (firstn 500 raw_text) = 500)
      by (apply firstn_length_le; lia).
    split; [|split].
    + rewrite length_app, Hlen. simpl. lia.
    + rewrite firstn_app, Hlen, Nat.sub_diag, firstn_O, app_nil_r.
      now rewrite firstn_firstn, Nat.min_id.
    + lia.
  - split; [lia|]. split; reflexivity.
Qed.

(* ================================================================== *)
(** * Further concrete runs *)

Lemma chunk_text_negative_budget_witness :
  (-1 < 0)%Z /\ chunk_text three_lines (-1) = split nl three_lines.
Proof.
  assert (H : (-1 < 0)%Z) by reflexivity.
  split; [exact H|exact (@chunk_text_negative_budget three_lines (-1) H)].
Defined.

Lemma summarize_with_ollama_trimmed_witness :
  fst (summarize_with_ollama world_ok six_chars model_m [])
  = Return (of_string "S")
  /\ (strip (of_string "S") = of_string "S"
      /\ (forall c rest, of_string "S" = c :: rest -> is_space c = false)
      /\ (forall rest c, of_string "S" = rest ++ [c] -> is_space c = false)).
Proof.
  assert (H : fst (summarize_with_ollama world_ok six_chars model_m [])
              = Return (of_string "S")) by reflexivity.
  split; [exact H|].
  exact (@summarize_with_ollama_trimmed world_ok six_chars model_m []
           (of_string "S") H).
Defined.

Lemma ollama_argv_inj_witness :
  ollama_argv six_chars model_m = ollama_argv six_chars model_m
  /\ (six_chars = six_chars /\ model_m = model_m).
Proof.
  split; [reflexivity|].
  exact (@ollama_argv_inj six_chars model_m six_chars model_m eq_refl).
Defined.

Lemma cli_summarize_start_failure_witness :
  Cli.summarize world_fail_second two_segments model_m []
  = (Raise no_ollama,
     [] ++ [EvPrint (Cli.progress_line 1 2);
            EvRun (ollama_argv full_line model_m) (Return proc_ok);
            EvPrint (Cli.progress_line 2 2);
            EvRun (ollama_argv (of_string "b") model_m) (Raise no_ollama)])
  /\ In (EvRun (ollama_argv (of_string "b") model_m) (Raise no_ollama))
       [EvPrint (Cli.progress_line 1 2);
        EvRun (ollama_argv full_line model_m) (Return proc_ok);
        EvPrint (Cli.progress_line 2 2);
        EvRun (ollama_argv (of_string "b") model_m) (Raise no_ollama)]
  /\ (@Raise str no_ollama = Raise no_ollama
      /\ exists t0,
           [EvPrint (Cli.progress_line 1 2);
            EvRun (ollama_argv full_line model_m) (Return proc_ok);
            EvPrint (Cli.progress_line 2 2);
            EvRun (ollama_argv (of_string "b") model_m) (Raise no_ollama)]
           = t0 ++ [EvRun (ollama_argv (of_string "b") model_m)
                      (Raise no_ollama)]).
Proof.
  assert (Hrun :
    Cli.summarize world_fail_second two_segments model_m []
    = (Raise no_ollama,
       [] ++ [EvPrint (Cli.progress_line 1 2);
              EvRun (ollama_argv full_line model_m) (Return proc_ok);
              EvPrint (Cli.progress_line 2 2);
              EvRun (ollama_argv (of_string "b") model_m) (Raise no_ollama)]))
    by evaluate.
  assert (Hin :
    In (EvRun (ollama_argv (of_string "b") model_m) (Raise no_ollama))
       [EvPrint (Cli.progress_line 1 2);
        EvRun (ollama_argv full_line model_m) (Return proc_ok);
        EvPrint (Cli.progress_line 2 2);
        EvRun (ollama_argv (of_string "b") model_m) (Raise no_ollama)])
    by (right; right; right; left; reflexivity).
  split; [exact Hrun|]. split; [exact Hin|].
  exact (@cli_summarize_start_failure world_fail_second two_segments model_m
           [] _ _ _ _ Hrun Hin).
Defined.

Lemma gui_summarize_start_failure_witness :
  Gui.summarize world_fail_second two_segments model_m (Some cb_ok) []
  = (Raise no_ollama,
     [] ++ [EvCallback (Gui.progress_msg 1 2) (Return tt);
            EvRun (ollama_argv full_line model_m) (Return proc_ok);
            EvCallback (Gui.progress_msg 2 2) (Return tt);
            EvRun (ollama_argv (of_string "b") model_m) (Raise no_ollama)])
  /\ In (EvRun (ollama_argv (of_string "b") model_m) (Raise no_ollama))
       [EvCallback (Gui.progress_msg 1 2) (Return tt);
        EvRun (ollama_argv full_line model_m) (Return proc_ok);
        EvCallback (Gui.progress_msg 2 2) (Return tt);
        EvRun (ollama_argv (of_string "b") model_m) (Raise no_ollama)]
  /\ (@Raise str no_ollama = Raise no_ollama
      /\ exists t0,
           [EvCallback (Gui.progress_msg 1 2) (Return tt);
            EvRun (ollama_argv full_line model_m) (Return proc_ok);
            EvCallback (Gui.progress_msg 2 2) (Return tt);
            EvRun (ollama_argv (of_string "b") model_m) (Raise no_ollama)]
           = t0 ++ [EvRun (ollama_argv (of_string "b") model_m)
                      (Raise no_ollama)]).
Proof.
  assert (Hrun :
    Gui.summarize world_fail_second two_segments model_m (Some cb_ok) []
    = (Raise no_ollama,
       [] ++ [EvCallback (Gui.progress_msg 1 2) (Return tt);
              EvRun (ollama_argv full_line model_m) (Return proc_ok);
              EvCallback (Gui.progress_msg 2 2) (Return tt);
              EvRun (ollama_argv (of_string "b") model_m) (Raise no_ollama)]))
    by evaluate.
  assert (Hin :
    In (EvRun (ollama_argv (of_string "b") model_m) (Raise no_ollama))
       [EvCallback (Gui.progress_msg 1 2) (Return tt);
        EvRun (ollama_argv full_line model_m) (Return proc_ok);
        EvCallback (Gui.progress_msg 2 2) (Return tt);
        EvRun (ollama_argv (of_string "b") model_m) (Raise no_ollama)])
    by (right; right; right; left; reflexivity).
  split; [exact Hrun|]. split; [exact Hin|].
  exact (@gui_summarize_start_failure world_fail_second (Some cb_ok)
           two_segments model_m [] _ _ _ _ Hrun Hin).
Defined.

Lemma gui_summarize_value_witness :
  (forall (h0 : trace) (argv : list str),
      world_len h0 argv = Return (backend_len argv))
  /\ (forall (cb : callback) (h0 : trace) (msg : str),
         Some cb_ok = Some cb -> cb h0 msg = Return tt)
  /\ (fst (Gui.summarize world_len two_segments model_m (Some cb_ok) [])
      = Return (join [nl; nl]
                  (map (fun chunk =>
                          output_of (backend_len (ollama_argv chunk model_m)))
                     (chunk_text two_segments default_max_chars)))
      /\ fst (Gui.summarize world_len two_segments model_m (Some cb_ok) [])
         = fst (Cli.summarize world_len two_segments model_m [])).
Proof.
  assert (Hw : forall (h0 : trace) (argv : list str),
             world_len h0 argv = Return (backend_len argv))
    by (intros; reflexivity).
  assert (Hcb : forall (cb : callback) (h0 : trace) (msg : str),
             Some cb_ok = Some cb -> cb h0 msg = Return tt)
    by (intros cb h0 msg H; injection H as <-; reflexivity).
  split; [exact Hw|]. split; [exact Hcb|].
  exact (@gui_summarize_value world_len backend_len (Some cb_ok) two_segments
           model_m [] [] Hw Hcb).
Defined.

Lemma cli_summarize_small_text_witness :
  (content_length six_chars <= default_max_chars)%Z
  /\ Cli.summarize world_ok six_chars model_m [] =
       (let h1 := [] ++ [EvPrint (Cli.progress_line 1 1)] in
        let r := world_ok h1 (ollama_argv six_chars model_m) in
        (match r with
         | Return proc => Return (output_of proc)
         | Raise e => Raise e
         end, h1 ++ [EvRun (ollama_argv six_chars model_m) r])).
Proof.
  assert (H : (content_length six_chars <= default_max_chars)%Z)
    by discriminate.
  split; [exact H|].
  exact (@cli_summarize_small_text world_ok six_chars model_m [] H).
Defined.

Lemma extract_text_from_pdf_lines_witness :
  (fun _ : str => Return sample_pages) sample_path = Return sample_pages
  /\ exists text : str,
       extract_text_from_pdf (fun _ => Return sample_pages) sample_path
       = Return text
       /\ (sample_pages = [] -> text = [])
       /\ (sample_pages <> [] ->
           split nl text
           = concat (map (fun page => split nl (or_empty page)) sample_pages)).
Proof.
  split; [reflexivity|].
  exact (@extract_text_from_pdf_lines (fun _ => Return sample_pages)
           sample_path sample_pages eq_refl).
Defined.

Lemma extract_text_from_pdf_textless_witness :
  (fun _ : str => Return scan_pages) sample_path = Return scan_pages
  /\ Forall textless scan_pages
  /\ (extract_text_from_pdf (fun _ => Return scan_pages) sample_path
      = Return (repeat nl (length scan_pages - 1))
      /\ chunk_text (repeat nl (length scan_pages - 1)) default_max_chars
         = [repeat nl (length scan_pages - 1)]).
Proof.
  assert (H : Forall textless scan_pages).
  { constructor; [left; reflexivity|].
    constructor; [right; reflexivity|].
    constructor; [left; reflexivity|constructor]. }
  split; [reflexivity|]. split; [exact H|].
  exact (@extract_text_from_pdf_textless (fun _ => Return scan_pages)
           sample_path scan_pages eq_refl H).
Defined.

Lemma extract_text_from_docx_lines_witness :
  (fun _ : str => Return sample_paragraphs) sample_path
  = Return sample_paragraphs
  /\ Forall (fun p => ~ In nl p) sample_paragraphs
  /\ exists text : str,
       extract_text_from_docx (fun _ => Return sample_paragraphs) sample_path
       = Return text
       /\ (filter nonblank sample_paragraphs = [] -> text = [])
       /\ (filter nonblank sample_paragraphs <> [] ->
           split nl text = filter nonblank sample_paragraphs).
Proof.
  assert (H : Forall (fun p => ~ In nl p) sample_paragraphs).
  { repeat constructor; no_newline. }
  split; [reflexivity|]. split; [exact H|].
  exact (@extract_text_from_docx_lines (fun _ => Return sample_paragraphs)
           sample_path sample_paragraphs eq_refl H).
Defined.

(** The sample documents, evaluated. *)
Example sample_pdf_text :
  extract_text_from_pdf (fun _ => Return sample_pages) sample_path
  = Return (line_pair ++ [nl; nl] ++ of_string "c").
Proof. reflexivity. Qed.

Example sample_docx_text :
  extract_text_from_docx (fun _ => Return sample_paragraphs) sample_path
  = Return (of_string "Title" ++ [nl] ++ of_string "Body").
Proof. reflexivity. Qed.

Lemma chunk_text_greedy_witness :
  chunk_text three_lines 5
  = [] ++ of_string "x" :: six_chars :: [of_string "y"]
  /\ (5 < content_length (of_string "x")
          + len (hd [] (split nl six_chars)))%Z.
Proof.
  assert (H : chunk_text three_lines 5
              = [] ++ of_string "x" :: six_chars :: [of_string "y"])
    by reflexivity.
  split; [exact H|].
  exact (@chunk_text_greedy three_lines 5 [] (of_string "x") six_chars
           [of_string "y"] H).
Defined.

Lemma summarize_returns_witness :
  (forall (h0 : trace) (argv : list str),
      exists proc, world_len h0 argv = Return proc)
  /\ (exists (s : str) (h' : trace),
         Cli.summarize world_len two_segments model_m [] = (Return s, h'))
  /\ (forall update_callback : option callback,
         (forall cb h0 msg,
             update_callback = Some cb -> cb h0 msg = Return tt) ->
         exists (s : str) (h' : trace),
           Gui.summarize world_len two_segments model_m update_callback []
           = (Return s, h')).
Proof.
  assert (Hw : forall (h0 : trace) (argv : list str),
             exists proc, world_len h0 argv = Return proc)
    by (intros h0 argv; exists (backend_len argv); reflexivity).
  split; [exact Hw|].
  exact (@summarize_returns world_len two_segments model_m [] Hw).
Defined.
